(** * Project Bootstrapper API: usage accounting, presets, request gate, pool

    A shallow embedding of [db.py], [services.py], [utils.py] and [main.py].

    Python integers are unbounded, so counters, ids and limits are [Z].
    A table is the list of its rows in storage order; [cur.fetchone()] is the
    first row of the result, [cur.fetchall()] all of them.  Every statement
    runs against the one database the connection talks to, and [conn.commit()]
    follows every write before the function returns, so the database is
    threaded through the functions as explicit state.  [date.today()] is an
    input of the functions that read it.  The calls [utils.py] and [main.py]
    make on the file system are an interface ([Os.Runtime]), so that nothing
    is assumed of what the operating system answers. *)

From Stdlib Require Import ZArith List String Bool Lia.
From stdpp Require Import base gmap strings.
Import ListNotations.
Open Scope string_scope.
Open Scope list_scope.
Open Scope Z_scope.

(** ** Python outcomes: a call returns a value or raises *)

Module Py.

Inductive exn : Type :=
| NameError (name : string)
| Empty
| OperationalError
| IntegrityError
| ProgrammingError
| TypeError
| AttributeError
| AlreadyClosed
| OSError (strerror : string)
| ValueError
| UnicodeEncodeError
| HTTPException (status_code : Z) (detail : string).

(** [Blocked]: the call waits for ever (a blocking [put] on a full queue). *)
Inductive outcome (A : Type) : Type :=
| Returned (a : A)
| Raised (e : exn)
| Blocked.
Arguments Returned {A} a.
Arguments Raised {A} e.
Arguments Blocked {A}.

(** Stateful computations that may raise: the state reached so far is kept
    when an exception leaves the function. *)
Definition M (S A : Type) : Type := S -> outcome A * S.

Definition ret {S A} (a : A) : M S A := fun s => (Returned a, s).
Definition raise {S A} (e : exn) : M S A := fun s => (Raised e, s).
Definition bind {S A B} (c : M S A) (k : A -> M S B) : M S B :=
  fun s => match c s with
           | (Returned a, s') => k a s'
           | (Raised e, s') => (Raised e, s')
           | (Blocked, s') => (Blocked, s')
           end.

(** [try: c  except Exception: pass] *)
Definition try_pass {S} (c : M S unit) : M S unit :=
  fun s => match c s with
           | (Raised _, s') => (Returned tt, s')
           | r => r
           end.

(** [try: body  finally: cleanup], for a cleanup that does not raise. *)
Definition try_finally {S A} (body : M S A) (cleanup : M S unit) : M S A :=
  fun s => match body s with
           | (Blocked, s') => (Blocked, s')
           | (o, s') => match cleanup s' with
                        | (Returned _, s'') => (o, s'')
                        | (Raised e, s'') => (Raised e, s'')
                        | (Blocked, s'') => (Blocked, s'')
                        end
           end.

(** A call that touches no state. *)
Definition lift {S A} (o : outcome A) : M S A := fun s => (o, s).

Definition get {S} : M S S := fun s => (Returned s, s).
Definition put {S} (s : S) : M S unit := fun _ => (Returned tt, s).

(** Values Python hands to the driver and SQL values stored in a column. *)
Inductive pyval : Type :=
| PNone
| PBool (b : bool)
| PInt (z : Z)
| PStr (s : string).

End Py.
Import Py.

Notation "x <- c ;; k" := (bind c (fun x => k))
  (at level 90, c at next level, right associativity).
Notation "c ;;; k" := (bind c (fun _ => k))
  (at level 90, right associativity).

(** ** Calendar dates ([datetime.date]) *)

Record date : Type := mkdate { year : Z; month : Z; day : Z }.

Definition date_eqb (a b : date) : bool :=
  (year a =? year b) && (month a =? month b) && (day a =? day b).

(** [a <= b] on dates: the order of (year, month, day). *)
Definition date_leb (a b : date) : bool :=
  (year a <? year b)
  || ((year a =? year b)
      && ((month a <? month b)
          || ((month a =? month b) && (day a <=? day b)))).

(** [date(today.year, today.month, 1)] *)
Definition first_of_month (today : date) : date :=
  mkdate (year today) (month today) 1.

(** ** db.py *)

Module Db.

(** The values the module reads from the environment when it is loaded
    ([os.getenv] with its default, [int] applied where the source does). *)
Record settings : Type := mksettings {
  MYSQL_HOST : string; MYSQL_PORT : Z; MYSQL_USER : string;
  MYSQL_PASSWORD : string; MYSQLDATABASE : string;
  POOL_MIN : Z; POOL_MAX : Z }.

(** The configuration names bound at module level, one per assignment of
    the source. *)
Definition module_globals (s : settings) : gmap string pyval :=
  list_to_map
    [ ("MYSQL_HOST", PStr (MYSQL_HOST s));
      ("MYSQL_PORT", PInt (MYSQL_PORT s));
      ("MYSQL_USER", PStr (MYSQL_USER s));
      ("MYSQL_PASSWORD", PStr (MYSQL_PASSWORD s));
      ("MYSQLDATABASE", PStr (MYSQLDATABASE s));
      ("POOL_MIN", PInt (POOL_MIN s));
      ("POOL_MAX", PInt (POOL_MAX s)) ].

(** [queue.Queue(maxsize)]: first in, first out; unbounded when
    [maxsize <= 0]. *)
Record queue : Type := mkqueue { maxsize : Z; items : list nat }.

(** The process and the server it connects to.  A connection is the number
    it was opened under; [conn_open] holds the [open] attribute of every
    connection object; [server_up] tells whether the server accepts a new
    connection. *)
Record world : Type := mkworld {
  _pool : option queue;
  conn_open : gmap nat bool;
  next_conn : nat;
  server_up : bool }.

Definition set_pool (q : option queue) (w : world) : world :=
  mkworld q (conn_open w) (next_conn w) (server_up w).

Definition set_open (c : nat) (b : bool) (w : world) : world :=
  mkworld (_pool w) (<[c := b]> (conn_open w)) (next_conn w) (server_up w).

Definition is_open (c : nat) (w : world) : bool :=
  match conn_open w !! c with
  | Some b => b
  | None => false
  end.

Section Namespace.

(** The module namespace the functions resolve their global names in. *)
Variable G : gmap string pyval.

(** Reading a global name. *)
Definition global (x : string) : M world pyval :=
  match G !! x with
  | Some v => ret v
  | None => raise (NameError x)
  end.

Definition global_int (x : string) : M world Z :=
  v <- global x ;;
  match v with
  | PInt z => ret z
  | PBool b => ret (if b then 1 else 0)
  | _ => raise TypeError
  end.

(** [pymysql.connect(...)] *)
Definition connect (host port user password db : pyval) : M world nat :=
  fun w =>
    if server_up w
    then (Returned (next_conn w),
          mkworld (_pool w) (<[next_conn w := true]> (conn_open w))
                  (S (next_conn w)) (server_up w))
    else (Raised OperationalError, w).

Definition _create_connection : M world nat :=
  host <- global "MYSQL_HOST" ;;
  port <- global "MYSQL_PORT" ;;
  user <- global "MYSQL_USER" ;;
  password <- global "MYSQL_PASSWORD" ;;
  db <- global "MYSQL_DB" ;;
  connect host port user password db.

Definition full (q : queue) : bool :=
  (0 <? maxsize q) && (maxsize q <=? Z.of_nat (length (items q))).

(** [q.put(c)] with no timeout: waits for ever on a full queue. *)
Definition queue_put (c : nat) (q : queue) : option queue :=
  if full q then None else Some (mkqueue (maxsize q) (items q ++ [c])).

(** [_pool.put(c)] *)
Definition pool_put (c : nat) : M world unit :=
  fun w =>
    match _pool w with
    | None => (Raised AttributeError, w)
    | Some q =>
        match queue_put c q with
        | None => (Blocked, w)
        | Some q' => (Returned tt, set_pool (Some q') w)
        end
    end.

(** [_pool.get(block=True, timeout=5)]: with nobody else to refill the
    queue, an empty queue raises [Empty] when the timeout expires. *)
Definition pool_get : M world nat :=
  fun w =>
    match _pool w with
    | None => (Raised AttributeError, w)
    | Some q =>
        match items q with
        | [] => (Raised Empty, w)
        | c :: rest => (Returned c, set_pool (Some (mkqueue (maxsize q) rest)) w)
        end
    end.

(** [for _ in range(n): q.put(_create_connection())] *)
Fixpoint fill (n : nat) (q : queue) : M world queue :=
  match n with
  | O => ret q
  | S n' =>
      c <- _create_connection ;;
      match queue_put c q with
      | None => fun w => (Blocked, w)
      | Some q' => fill n' q'
      end
  end.

Definition init_pool : M world unit :=
  w <- get ;;
  match _pool w with
  | Some _ => ret tt
  | None =>
      pool_max <- global_int "POOL_MAX" ;;
      pool_min <- global_int "POOL_MIN" ;;
      q <- fill (Z.to_nat pool_min) (mkqueue pool_max []) ;;
      fun w' => (Returned tt, set_pool (Some q) w')
  end.

(** [conn.close()] *)
Definition close (c : nat) : M world unit :=
  fun w =>
    if is_open c w then (Returned tt, set_open c false w)
    else (Raised AlreadyClosed, w).

(** [get_conn] up to its [yield]: the connection and [borrowed]. *)
Definition acquire : M world (nat * bool) :=
  w <- get ;;
  match _pool w with
  | None => init_pool
  | Some _ => ret tt
  end ;;;
  fun w' =>
    match pool_get w' with
    | (Returned conn, w'') => (Returned (conn, true), w'')
    | (Raised _, w'') =>
        (conn <- _create_connection ;; ret (conn, false)) w''
    | (Blocked, w'') => (Blocked, w'')
    end.

(** [get_conn] after its [yield]: the [finally] block. *)
Definition release (conn : nat) (borrowed : bool) : M world unit :=
  try_pass
    (if borrowed
     then
       w <- get ;;
       if is_open conn w
       then pool_put conn
       else
         fresh <- _create_connection ;;
         pool_put fresh
     else try_pass (close conn)).

(** [with get_conn() as conn: body] *)
Definition get_conn {A} (body : nat -> M world A) : M world A :=
  cb <- acquire ;;
  try_finally (body (fst cb)) (release (fst cb) (snd cb)).

End Namespace.

(** The number of connections the pool holds. *)
Definition pool_size (w : world) : nat :=
  match _pool w with
  | None => O
  | Some q => length (items q)
  end.

(** A bounded queue holds at most [maxsize] items. *)
Definition queue_bounded (q : queue) : Prop :=
  0 < maxsize q -> Z.of_nat (length (items q)) <= maxsize q.

Definition pool_bounded (w : world) : Prop :=
  match _pool w with
  | None => True
  | Some q => queue_bounded q
  end.

(** What callers do with the pool, one after the other. *)
Inductive pool_op : Type :=
| Acquire
| Release (conn : nat) (borrowed : bool).

Definition run_op (G : gmap string pyval) (w : world) (op : pool_op) : world :=
  match op with
  | Acquire => snd (acquire G w)
  | Release conn borrowed => snd (release G conn borrowed w)
  end.

(** A namespace in which every name [_create_connection] reads is bound:
    the module as it would be with [MYSQL_DB] assigned. *)
Definition binds_connection_names (G : gmap string pyval) : Prop :=
  is_Some (G !! "MYSQL_HOST") /\ is_Some (G !! "MYSQL_PORT")
  /\ is_Some (G !! "MYSQL_USER") /\ is_Some (G !! "MYSQL_PASSWORD")
  /\ is_Some (G !! "MYSQL_DB").

End Db.

(** ** services.py

    Every function below runs its statements inside
    [with get_conn() as conn]; the model starts from the database that
    connection talks to.  (How a connection is handed out, and that the
    module as it stands cannot open one, is the subject of [Db].) *)

Module Services.

(** *** Tables *)

Record user : Type := mkuser {
  u_id : Z; username : string; email : string; api_key : string; tier : string }.

Record usage_log : Type := mkusage {
  ul_id : Z; ul_user_id : Z; log_date : date;
  calls_today : Z; projects_this_month : Z }.

Inductive sqlval : Type :=
| VNull
| VInt (z : Z)
| VStr (s : string).

Record preset : Type := mkpreset {
  p_id : sqlval; p_user_id : sqlval; p_name : sqlval; p_template : sqlval;
  p_git_init : sqlval; p_use_venv : sqlval; p_license_type : sqlval }.

(** Modelled from the spec: the table declarations are not part of the
    sources.  Ids are generated on insert (one counter per table), and
    [usage_logs] carries UNIQUE(user_id, log_date). *)
Record database : Type := mkdb {
  users : list user;
  usage_logs : list usage_log;
  presets : list preset;
  users_next_id : Z;
  usage_logs_next_id : Z;
  presets_next_id : Z }.

Definition set_usage_logs (t : list usage_log) (n : Z) (db : database) : database :=
  mkdb (users db) t (presets db) (users_next_id db) n (presets_next_id db).

Definition set_presets (t : list preset) (n : Z) (db : database) : database :=
  mkdb (users db) (usage_logs db) t (users_next_id db) (usage_logs_next_id db) n.

(** *** Statements on [usage_logs] *)

(** [WHERE user_id=%s AND log_date=%s] *)
Definition usage_key (user_id : Z) (d : date) (r : usage_log) : bool :=
  (ul_user_id r =? user_id) && date_eqb (log_date r) d.

(** [SELECT id,calls_today FROM usage_logs WHERE user_id=%s AND log_date=%s]
    followed by [fetchone()]. *)
Definition select_usage (user_id : Z) (d : date) (t : list usage_log)
  : option usage_log :=
  List.find (usage_key user_id d) t.

(** [INSERT INTO usage_logs (user_id, log_date, calls_today,
    projects_this_month) VALUES (%s,%s,c,p)]; the server refuses a second
    row for a (user_id, log_date) pair. *)
Definition insert_usage (user_id : Z) (d : date) (c p : Z) : M database unit :=
  fun db =>
    match select_usage user_id d (usage_logs db) with
    | Some _ => (Raised IntegrityError, db)
    | None =>
        (Returned tt,
         set_usage_logs
           (usage_logs db ++ [mkusage (usage_logs_next_id db) user_id d c p])
           (usage_logs_next_id db + 1) db)
    end.

Definition bump_calls (r : usage_log) : usage_log :=
  mkusage (ul_id r) (ul_user_id r) (log_date r)
          (calls_today r + 1) (projects_this_month r).

Definition bump_projects (r : usage_log) : usage_log :=
  mkusage (ul_id r) (ul_user_id r) (log_date r)
          (calls_today r) (projects_this_month r + 1).

(** [UPDATE usage_logs SET calls_today=calls_today+1 WHERE id=%s] *)
Definition update_calls (id : Z) : M database unit :=
  fun db =>
    (Returned tt,
     set_usage_logs
       (map (fun r => if ul_id r =? id then bump_calls r else r) (usage_logs db))
       (usage_logs_next_id db) db).

(** [UPDATE usage_logs SET projects_this_month=projects_this_month+1
    WHERE id=%s] *)
Definition update_projects (id : Z) : M database unit :=
  fun db =>
    (Returned tt,
     set_usage_logs
       (map (fun r => if ul_id r =? id then bump_projects r else r) (usage_logs db))
       (usage_logs_next_id db) db).

(** [WHERE user_id=%s AND log_date >= %s] *)
Definition in_month (user_id : Z) (first : date) (r : usage_log) : bool :=
  (ul_user_id r =? user_id) && date_leb first (log_date r).

(** [SELECT SUM(projects_this_month) as total ...]: NULL when no row is
    selected, the sum of the selected rows otherwise. *)
Definition select_sum_projects (user_id : Z) (first : date) (t : list usage_log)
  : option Z :=
  match List.filter (in_month user_id first) t with
  | [] => None
  | r :: rs =>
      Some (fold_left (fun acc x => acc + projects_this_month x) rs
                      (projects_this_month r))
  end.

(** [r['total'] or 0] *)
Definition or_zero (total : option Z) : Z :=
  match total with
  | None => 0
  | Some z => if z =? 0 then 0 else z
  end.

(** *** Quota engine *)

Definition ensure_usage_row (user_id : Z) (for_date : date) : M database unit :=
  db <- get ;;
  match select_usage user_id for_date (usage_logs db) with
  | None => insert_usage user_id for_date 0 0
  | Some _ => ret tt
  end.

Definition increment_call_and_check_limit (today : date)
    (user_id : Z) (daily_limit : Z) : M database bool :=
  db <- get ;;
  match select_usage user_id today (usage_logs db) with
  | None =>
      insert_usage user_id today 1 0 ;;;
      ret true
  | Some r =>
      if calls_today r + 1 >? daily_limit then ret false
      else
        update_calls (ul_id r) ;;;
        ret true
  end.

(** The total the monthly check compares against the limit. *)
Definition month_total (today : date) (user_id : Z) (db : database) : Z :=
  or_zero (select_sum_projects user_id (first_of_month today) (usage_logs db)).

Definition increment_project_and_check_limit (today : date)
    (user_id : Z) (month_limit : Z) : M database bool :=
  db <- get ;;
  let total := month_total today user_id db in
  if total + 1 >? month_limit then ret false
  else
    match select_usage user_id today (usage_logs db) with
    | None => insert_usage user_id today 0 1
    | Some row => update_projects (ul_id row)
    end ;;;
    ret true.

(** [n] calls of the daily check for one user, one after the other on one
    day: what each call returned, and the database after the last. *)
Fixpoint daily_calls (today : date) (user_id daily_limit : Z) (n : nat)
    (db : database) : list (outcome bool) * database :=
  match n with
  | O => ([], db)
  | S n' =>
      let (o, db') := increment_call_and_check_limit today user_id daily_limit db in
      let (os, db'') := daily_calls today user_id daily_limit n' db' in
      (o :: os, db'')
  end.

(** The first [N] calls of a day return true and every later call returns
    false: the results of the calls, in order. *)
Definition exactly_first (N : Z) (results : list (outcome bool)) : Prop :=
  forall (k : nat) (o : outcome bool),
    nth_error results k = Some o -> o = Returned (Z.of_nat (S k) <=? N).

(** The monthly total in the words of the specification: the sum of
    [projects_this_month] over the rows of the user dated on or after the
    first day of the current month. *)
Fixpoint spec_month_sum (today : date) (user_id : Z) (t : list usage_log) : Z :=
  match t with
  | [] => 0
  | r :: t' =>
      (if (ul_user_id r =? user_id) && date_leb (first_of_month today) (log_date r)
       then projects_this_month r else 0)
      + spec_month_sum today user_id t'
  end.

(** A date of an earlier calendar month than [today]'s. *)
Definition earlier_month (d today : date) : Prop :=
  year d < year today \/ (year d = year today /\ month d < month today).

(** A date of the calendar month of [today]. *)
Definition same_month (d today : date) : Prop :=
  year d = year today /\ month d = month today /\ 1 <= day d.

(** *** Users *)

(** [SELECT * FROM users WHERE api_key=%s] followed by [fetchone()]. *)
Definition get_user_by_api_key (key : string) : M database (option user) :=
  db <- get ;;
  ret (List.find (fun u => String.eqb (api_key u) key) (users db)).

(** *** Presets *)

Inductive column : Type :=
| c_id | c_user_id | c_name | c_template | c_git_init | c_use_venv
| c_license_type.

(** The text [update_preset] splices into the statement for a key. *)
Definition column_name (c : column) : string :=
  match c with
  | c_id => "id" | c_user_id => "user_id" | c_name => "name"
  | c_template => "template" | c_git_init => "git_init"
  | c_use_venv => "use_venv" | c_license_type => "license_type"
  end.

(** How the driver writes a Python value into a statement. *)
Definition to_sql (v : pyval) : sqlval :=
  match v with
  | PNone => VNull
  | PBool b => VInt (if b then 1 else 0)
  | PInt z => VInt z
  | PStr s => VStr s
  end.

(** SQL [=]: NULL is equal to nothing. *)
Definition sql_eqb (a b : sqlval) : bool :=
  match a, b with
  | VInt x, VInt y => x =? y
  | VStr x, VStr y => String.eqb x y
  | _, _ => false
  end.

Definition column_value (c : column) (r : preset) : sqlval :=
  match c with
  | c_id => p_id r | c_user_id => p_user_id r | c_name => p_name r
  | c_template => p_template r | c_git_init => p_git_init r
  | c_use_venv => p_use_venv r | c_license_type => p_license_type r
  end.

(** [SET c = v] on one row. *)
Definition assign (c : column) (v : sqlval) (r : preset) : preset :=
  match c with
  | c_id => mkpreset v (p_user_id r) (p_name r) (p_template r) (p_git_init r) (p_use_venv r) (p_license_type r)
  | c_user_id => mkpreset (p_id r) v (p_name r) (p_template r) (p_git_init r) (p_use_venv r) (p_license_type r)
  | c_name => mkpreset (p_id r) (p_user_id r) v (p_template r) (p_git_init r) (p_use_venv r) (p_license_type r)
  | c_template => mkpreset (p_id r) (p_user_id r) (p_name r) v (p_git_init r) (p_use_venv r) (p_license_type r)
  | c_git_init => mkpreset (p_id r) (p_user_id r) (p_name r) (p_template r) v (p_use_venv r) (p_license_type r)
  | c_use_venv => mkpreset (p_id r) (p_user_id r) (p_name r) (p_template r) (p_git_init r) v (p_license_type r)
  | c_license_type => mkpreset (p_id r) (p_user_id r) (p_name r) (p_template r) (p_git_init r) (p_use_venv r) v
  end.

(** A SET clause, applied left to right. *)
Definition assign_all (set_clause : list (column * sqlval)) (r : preset) : preset :=
  fold_left (fun acc cv => assign (fst cv) (snd cv) acc) set_clause r.

(** [WHERE user_id=%s] *)
Definition owned_by (user_id : Z) (r : preset) : bool :=
  sql_eqb (p_user_id r) (VInt user_id).

(** [WHERE id=%s AND user_id=%s] *)
Definition preset_key (preset_id user_id : sqlval) (r : preset) : bool :=
  sql_eqb (p_id r) preset_id && sql_eqb (p_user_id r) user_id.

(** [int(x)] on the values a request field can hold. *)
Definition py_int (v : option bool) : M database Z :=
  match v with
  | None => raise TypeError
  | Some b => ret (if b then 1 else 0)
  end.

Definition opt_str (v : option string) : sqlval :=
  match v with
  | None => VNull
  | Some s => VStr s
  end.

Definition create_preset (user_id : Z) (name template : string)
    (git_init use_venv : option bool) (license_type : option string)
  : M database (option preset) :=
  g <- py_int git_init ;;
  v <- py_int use_venv ;;
  db <- get ;;
  let last_insert_id := presets_next_id db in
  put (set_presets
         (presets db ++
            [mkpreset (VInt last_insert_id) (VInt user_id) (VStr name)
                      (VStr template) (VInt g) (VInt v) (opt_str license_type)])
         (last_insert_id + 1) db) ;;;
  db <- get ;;
  ret (List.find (fun r => sql_eqb (p_id r) (VInt last_insert_id)) (presets db)).

Definition list_presets (user_id : Z) : M database (list preset) :=
  db <- get ;;
  ret (List.filter (owned_by user_id) (presets db)).

Definition get_preset (user_id preset_id : Z) : M database (option preset) :=
  db <- get ;;
  ret (List.find (preset_key (VInt preset_id) (VInt user_id)) (presets db)).

(** [cur.execute(f"UPDATE presets SET {set_clause} WHERE id=%s AND
    user_id=%s", tuple(values))]: the first [length fields] values fill the
    SET clause, the two that follow fill the WHERE clause.  A statement with
    an empty SET clause is rejected by the server. *)
Definition execute_update (fields : list column) (values : list pyval)
  : M database unit :=
  let n := length fields in
  match fields, List.skipn n values with
  | _ :: _, [preset_id; user_id] =>
      let set_clause := combine fields (map to_sql (List.firstn n values)) in
      db <- get ;;
      put (set_presets
             (map (fun r => if preset_key (to_sql preset_id) (to_sql user_id) r
                            then assign_all set_clause r else r)
                  (presets db))
             (presets_next_id db) db)
  | _, _ => raise ProgrammingError
  end.

(** [data] is the dict in iteration order.  Its keys are spliced into the
    statement text; the model covers the keys that name a column of
    [presets], which is what [payload.dict()] supplies. *)
Definition update_preset (user_id preset_id : Z) (data : list (column * pyval))
  : M database (option preset) :=
  let fields := map fst data in
  let values := map snd data ++ [PInt preset_id; PInt user_id] in
  execute_update fields values ;;;
  get_preset user_id preset_id.

(** [DELETE FROM presets WHERE id=%s AND user_id=%s]; the result is
    [cur.rowcount > 0]. *)
Definition delete_preset (user_id preset_id : Z) : M database bool :=
  db <- get ;;
  let hit := preset_key (VInt preset_id) (VInt user_id) in
  let rowcount := Z.of_nat (length (List.filter hit (presets db))) in
  put (set_presets (List.filter (fun r => negb (hit r)) (presets db))
                   (presets_next_id db) db) ;;;
  ret (rowcount >? 0).

(** The columns a preset owner edits; [id] and [user_id] identify the row. *)
Definition editable (c : column) : bool :=
  match c with
  | c_id | c_user_id => false
  | _ => true
  end.

(** The presets of one user, in storage order. *)
Definition presets_of (user_id : Z) (db : database) : list preset :=
  List.filter (owned_by user_id) (presets db).

(** [updatePreset] in the words of the specification: when a preset matches
    the id and the owner, exactly the supplied fields of that preset change
    and the call returns the row as it is stored after the update; when none
    matches it returns "not found". *)
Definition update_as_specified (user_id preset_id : Z)
    (data : list (column * pyval)) (db : database) : Prop :=
  match List.find (preset_key (VInt preset_id) (VInt user_id)) (presets db) with
  | Some r =>
      exists r' db',
        update_preset user_id preset_id data db = (Returned (Some r'), db')
        /\ List.find (preset_key (VInt preset_id) (VInt user_id)) (presets db')
           = Some r'
        /\ (forall c v, In (c, v) data -> column_value c r' = to_sql v)
        /\ (forall c, ~ In c (map fst data) -> column_value c r' = column_value c r)
  | None =>
      exists db', update_preset user_id preset_id data db = (Returned None, db')
  end.

(** *** Registration *)

(** [WHERE api_key=%s] *)
Definition by_api_key (key : string) (u : user) : bool :=
  String.eqb (api_key u) key.

Definition set_users (t : list user) (n : Z) (db : database) : database :=
  mkdb t (usage_logs db) (presets db) n (usage_logs_next_id db) (presets_next_id db).

(** [create_user]: the INSERT, the commit and the read-back by key.  The
    server refuses a second row with an [api_key] that is taken (the UNIQUE
    key of the schema). *)
Definition create_user (username email api_key tier : string)
  : M database (option user) :=
  db <- get ;;
  match List.find (by_api_key api_key) (users db) with
  | Some _ => raise IntegrityError
  | None =>
      put (set_users
             (users db ++ [mkuser (users_next_id db) username email api_key tier])
             (users_next_id db + 1) db) ;;;
      get_user_by_api_key api_key
  end.

(** *** Well-formed tables *)

(** The ids of [usage_logs] are distinct and below the counter that
    generates them, and no (user, day) has two rows. *)
Definition usage_wf (db : database) : Prop :=
  List.NoDup (map ul_id (usage_logs db))
  /\ Forall (fun r => ul_id r < usage_logs_next_id db) (usage_logs db)
  /\ forall u d,
       (length (List.filter (usage_key u d) (usage_logs db)) <= 1)%nat.

(** The ids of [presets] are integers below the counter that generates
    them. *)
Definition presets_wf (db : database) : Prop :=
  Forall (fun r => exists i, p_id r = VInt i /\ i < presets_next_id db)
         (presets db).

(** The monthly check called once on each of [days], in order. *)
Fixpoint monthly_calls (days : list date) (user_id month_limit : Z)
    (db : database) : list (outcome bool) * database :=
  match days with
  | [] => ([], db)
  | today :: days' =>
      let (o, db') := increment_project_and_check_limit today user_id month_limit db in
      let (os, db'') := monthly_calls days' user_id month_limit db' in
      (o :: os, db'')
  end.

End Services.

(** ** The interpreter and the operating system

    What [utils.py] and [main.py] call outside the database: [tempfile],
    [pathlib], [shutil], [zipfile], the response class of the framework and
    the iteration order of a set.  They are taken as an interface.  What a
    call returns, whether it raises, and what it leaves on the disc is the
    operating system's to decide; the properties below hold for every
    behaviour of it. *)

Module Os.

Class Runtime : Type := {
  (* the file system, as the calls below see and change it *)
  files : Type;
  (* [pathlib.Path] objects, file contents read as bytes, open archives,
     response objects *)
  Path : Type;
  bytes : Type;
  zipfile : Type;
  http_response : Type;
  (* [tempfile.mkdtemp(prefix=...)]: the name of the new directory *)
  mkdtemp : string -> M files string;
  (* [pathlib.Path(s)], [p / s], [str(p)], [p.parts], [p.relative_to(q)] *)
  Path_ : string -> Path;
  joinpath : Path -> string -> Path;
  str : Path -> string;
  parts : Path -> list string;
  relative_to : Path -> Path -> outcome Path;
  (* [p.mkdir(parents=True, exist_ok=True)], [p.write_text(text)] *)
  mkdir : Path -> M files unit;
  write_text : Path -> string -> M files unit;
  (* [p.rglob('*')]: the paths the walk yields, in the order it yields
     them, the walk taken as one call that is over before the loop body
     runs; [p.is_file()] *)
  rglob : Path -> M files (list Path);
  is_file : Path -> M files bool;
  (* [shutil.rmtree(p)] *)
  rmtree : Path -> M files unit;
  (* [tempfile.NamedTemporaryFile(delete=False, suffix=...)]: the [name] of
     the file created *)
  NamedTemporaryFile : string -> M files string;
  (* [zipfile.ZipFile(name, 'w', zipfile.ZIP_DEFLATED)], [zf.write(f,
     arcname)], and the [close] that leaving the [with] block calls *)
  ZipFile : string -> M files zipfile;
  zf_write : zipfile -> Path -> Path -> M files unit;
  zf_close : zipfile -> M files unit;
  (* [with open(name, 'rb') as fh: data = fh.read()], [os.unlink(name)] *)
  read_bytes : string -> M files bytes;
  unlink : string -> M files unit;
  (* [Response(content=..., media_type=..., headers=...)] *)
  Response : bytes -> string -> list (string * string) -> outcome http_response;
  (* [list(s)] for a set [s] of strings, given as the list of its elements:
     the same elements, in the order of this process's hashes *)
  list_of_set : list string -> list string;
  list_of_set_perm : forall s, Permutation (list_of_set s) s
}.

End Os.

(** ** utils.py *)

Module Utils.
Import Os.

(** The set literal, as the list of its elements. *)
Definition ALLOWED_FREE_TEMPLATES : list string :=
  ["flask"; "fastapi"; "basic-python"].

(** [x in ALLOWED_FREE_TEMPLATES] *)
Definition allowed (template : string) : bool :=
  existsb (String.eqb template) ALLOWED_FREE_TEMPLATES.

Section Archive.
Context {R : Runtime}.

(** The body of the loop over [folder_path.rglob('*')]: a regular file
    goes into the archive under its path relative to the folder, unless
    [.git] or [venv] is among the parts of its (whole) path. *)
Fixpoint zip_members (zf : zipfile) (folder_path : Path) (found : list Path)
  : M files unit :=
  match found with
  | [] => ret tt
  | f :: rest =>
      regular <- is_file f ;;
      (if regular
       then
         if existsb (String.eqb ".git") (parts f)
            || existsb (String.eqb "venv") (parts f)
         then ret tt
         else
           arcname <- lift (relative_to f folder_path) ;;
           zf_write zf f arcname
       else ret tt) ;;;
      zip_members zf folder_path rest
  end.

Definition create_zip_archive (folder_path : string) : M files bytes :=
  tmp_zip <- NamedTemporaryFile ".zip" ;;
  (zf <- ZipFile tmp_zip ;;
   try_finally
     (let folder_path := Path_ folder_path in
      found <- rglob folder_path ;;
      zip_members zf folder_path found)
     (zf_close zf)) ;;;
  data <- read_bytes tmp_zip ;;
  unlink tmp_zip ;;;
  ret data.

End Archive.

End Utils.

(** ** main.py

    The handlers and the gate, from their function bodies.  (The decorator
    of [home] names [HTMLResponse], which the module does not import; the
    model takes the functions as defined.) *)

Module Main.
Import Services Os Utils.

(** The limits read from the environment when the module is loaded. *)
Record limits : Type := mklimits { DAILY_LIMIT : Z; MONTH_LIMIT : Z }.

(** Request models. *)
Record PresetIn : Type := mkPresetIn {
  pi_name : string; pi_template : string;
  pi_git_init : option bool; pi_use_venv : option bool;
  pi_license_type : option string }.

Record CreateRequest : Type := mkCreateRequest {
  cr_name : string; cr_template : string;
  cr_git_init : option bool; cr_use_venv : option bool;
  cr_license_type : option string }.

Definition opt_bool (v : option bool) : pyval :=
  match v with None => PNone | Some b => PBool b end.

Definition opt_string (v : option string) : pyval :=
  match v with None => PNone | Some s => PStr s end.

(** [payload.dict()]: every field of the model, in declaration order. *)
Definition PresetIn_dict (p : PresetIn) : list (column * pyval) :=
  [ (c_name, PStr (pi_name p));
    (c_template, PStr (pi_template p));
    (c_git_init, opt_bool (pi_git_init p));
    (c_use_venv, opt_bool (pi_use_venv p));
    (c_license_type, opt_string (pi_license_type p)) ].

(** The request model built from a body that carries only the required
    fields: the optional ones take their defaults. *)
Definition PresetIn_required (name template : string) : PresetIn :=
  mkPresetIn name template (Some false) (Some false) None.

(** [not x_api_key]: the header is missing or empty. *)
Definition no_key (x_api_key : option string) : bool :=
  match x_api_key with
  | None => true
  | Some k => String.eqb k ""
  end.

Definition require_api_key (L : limits) (today : date)
    (x_api_key : option string) : M database user :=
  match x_api_key with
  | None => raise (HTTPException 401 "Missing X-API-Key header")
  | Some key =>
      if String.eqb key ""
      then raise (HTTPException 401 "Missing X-API-Key header")
      else
        found <- get_user_by_api_key key ;;
        match found with
        | None => raise (HTTPException 401 "Invalid API key")
        | Some user =>
            ok <- increment_call_and_check_limit today (u_id user) (DAILY_LIMIT L) ;;
            if negb ok
            then raise (HTTPException 429 "Daily API call limit exceeded")
            else ret user
        end
  end.

(** [n] requests with the same key header, one after the other on one day:
    what the gate answered to each, and the database after the last. *)
Fixpoint gate_calls (L : limits) (today : date) (x_api_key : option string)
    (n : nat) (d : database) : list (outcome user) * database :=
  match n with
  | O => ([], d)
  | S n' =>
      let (o, d') := require_api_key L today x_api_key d in
      let (os, d'') := gate_calls L today x_api_key n' d' in
      (o :: os, d'')
  end.

(** Every stored preset names a template of the allow-set. *)
Definition templates_allowed (d : database) : Prop :=
  Forall (fun r => exists t, p_template r = VStr t /\ allowed t = true)
         (presets d).

(** The double quote character, for the generated sources. *)
Definition dq : string := String (Ascii.ascii_of_nat 34) EmptyString.

Section Handlers.
Context {R : Runtime}.

(** What a handler works on: the database and the file system. *)
Record app : Type := mkapp { db : database; fs : files }.

Definition on_db {A} (c : M database A) : M app A :=
  fun s => match c (db s) with
           | (o, d) => (o, mkapp d (fs s))
           end.

Definition on_fs {A} (c : M files A) : M app A :=
  fun s => match c (fs s) with
           | (o, f) => (o, mkapp (db s) f)
           end.

Inductive response : Type :=
| Templates (available_templates : list string)
| PresetRow (row : option preset)
| PresetRows (rows : list preset)
| Deleted
| Manifest (project_name : string) (files : list string)
| Download (r : http_response).

(** [user=Depends(require_api_key)]: the gate runs, and the handler body
    runs with its result only when the gate returned. *)
Definition Depends (L : limits) (today : date) (x_api_key : option string)
    (handler : user -> M app response) : M app response :=
  user <- on_db (require_api_key L today x_api_key) ;;
  handler user.

Definition list_templates (_ : user) : M app response :=
  ret (Templates (list_of_set ALLOWED_FREE_TEMPLATES)).

Definition add_preset (p : PresetIn) (user : user) : M app response :=
  if negb (allowed (pi_template p))
  then raise (HTTPException 403 "Template not allowed for free tier")
  else
    created <- on_db (create_preset (u_id user) (pi_name p) (pi_template p)
                        (pi_git_init p) (pi_use_venv p) (pi_license_type p)) ;;
    ret (PresetRow created).

Definition get_presets (user : user) : M app response :=
  rows <- on_db (list_presets (u_id user)) ;;
  ret (PresetRows rows).

Definition put_preset (preset_id : Z) (payload : PresetIn) (user : user)
  : M app response :=
  if negb (allowed (pi_template payload))
  then raise (HTTPException 403 "Template not allowed for free tier")
  else
    updated <- on_db (update_preset (u_id user) preset_id (PresetIn_dict payload)) ;;
    match updated with
    | None => raise (HTTPException 404 "Preset not found")
    | Some row => ret (PresetRow (Some row))
    end.

Definition remove_preset (preset_id : Z) (user : user) : M app response :=
  ok <- on_db (delete_preset (u_id user) preset_id) ;;
  if negb ok
  then raise (HTTPException 404 "Preset not found")
  else ret Deleted.

(** [create_project], lines 190 to 202: the files of the template, written
    in this order; [req.name] is joined to the root as it is given. *)
Definition write_template (project_root : Path) (req : CreateRequest)
  : M files unit :=
  if String.eqb (cr_template req) "basic-python" then
    mkdir (joinpath project_root (cr_name req)) ;;;
    write_text (joinpath (joinpath project_root (cr_name req)) "__init__.py") "" ;;;
    write_text (joinpath project_root "README.md")
      ("# " ++ cr_name req ++ "
Generated by bootstrapper
")%string ;;;
    write_text (joinpath project_root "main.py")
      ("print(" ++ dq ++ "Hello from generated project" ++ dq ++ ")")%string
  else if String.eqb (cr_template req) "flask" then
    mkdir (joinpath project_root (cr_name req)) ;;;
    write_text (joinpath (joinpath project_root (cr_name req)) "app.py")
      ("from flask import Flask
app = Flask(__name__)

@app.route(" ++ dq ++ "/" ++ dq ++ ")
def home():
    return " ++ dq ++ "Hello, Flask!" ++ dq ++ "
")%string ;;;
    write_text (joinpath project_root "requirements.txt") "flask"
  else if String.eqb (cr_template req) "fastapi" then
    mkdir (joinpath project_root "app") ;;;
    write_text (joinpath (joinpath project_root "app") "main.py")
      ("from fastapi import FastAPI
app=FastAPI()
@app.get(" ++ dq ++ "/" ++ dq ++ ")
def root():
    return {" ++ dq ++ "msg" ++ dq ++ ":" ++ dq ++ "Hello FastAPI" ++ dq ++ "}")%string ;;;
    write_text (joinpath project_root "requirements.txt") "fastapi
uvicorn"
  else ret tt.

(** [[str(p.relative_to(project_root)) for p in project_root.rglob('*')
    if p.is_file()]], over the paths the walk yields. *)
Fixpoint manifest (project_root : Path) (found : list Path)
  : M files (list string) :=
  match found with
  | [] => ret []
  | p :: rest =>
      regular <- is_file p ;;
      if regular
      then
        rel <- lift (relative_to p project_root) ;;
        more <- manifest project_root rest ;;
        ret (str rel :: more)
      else manifest project_root rest
  end.

(** [create_project] from line 186 on, once both checks have passed: the
    temporary directory, the template, the answer, and the removal of the
    directory on the way out. *)
Definition generate (req : CreateRequest) (download : bool) : M files response :=
  created <- mkdtemp "proj_" ;;
  let project_root := Path_ created in
  try_finally
    (write_template project_root req ;;;
     if download
     then
       data <- create_zip_archive (str project_root) ;;
       r <- lift (Response data "application/zip"
                    [("Content-Disposition",
                      ("attachment; filename=" ++ dq ++ cr_name req ++ ".zip" ++ dq)%string)]) ;;
       ret (Download r)
     else
       found <- rglob project_root ;;
       files <- manifest project_root found ;;
       ret (Manifest (cr_name req) files))
    (try_pass (rmtree project_root)).

(** [download] is the truth value of the query parameter. *)
Definition create_project (L : limits) (today : date) (req : CreateRequest)
    (download : bool) (user : user) : M app response :=
  if negb (allowed (cr_template req))
  then raise (HTTPException 403 "Template not allowed for free tier")
  else
    ok <- on_db (increment_project_and_check_limit today (u_id user) (MONTH_LIMIT L)) ;;
    if negb ok
    then raise (HTTPException 429 "Monthly project limit exceeded")
    else on_fs (generate req download).

Definition create_and_download (L : limits) (today : date) (req : CreateRequest)
    (user : user) : M app response :=
  create_project L today req true user.

End Handlers.

End Main.

(** ** Calls of the daily check that overlap in time

    A call of [increment_call_and_check_limit] sends two statements, the
    SELECT and then the INSERT or the UPDATE, and decides in between from
    the row it fetched.  Calls on different connections can run their
    statements in any order; a statement is one step on the shared
    database. *)

Module Concurrent.
Import Services.

Inductive call : Type :=
| Start
| Fetched (r : option usage_log)
| Finished (o : outcome bool).

(** The next statement of one call. *)
Definition step_call (today : date) (user_id daily_limit : Z)
    (c : call) (db : database) : call * database :=
  match c with
  | Start => (Fetched (select_usage user_id today (usage_logs db)), db)
  | Fetched None =>
      let (o, db') := (insert_usage user_id today 1 0 ;;; ret true) db in
      (Finished o, db')
  | Fetched (Some r) =>
      if calls_today r + 1 >? daily_limit then (Finished (Returned false), db)
      else
        let (o, db') := (update_calls (ul_id r) ;;; ret true) db in
        (Finished o, db')
  | Finished o => (Finished o, db)
  end.

(** The calls in flight and the database they share. *)
Record system : Type := mksystem { calls : list call; shared : database }.

(** Call number [i] runs its next statement. *)
Definition step (today : date) (user_id daily_limit : Z) (i : nat) (s : system)
  : system :=
  match nth_error (calls s) i with
  | None => s
  | Some c =>
      let (c', db') := step_call today user_id daily_limit c (shared s) in
      mksystem (firstn i (calls s) ++ c' :: skipn (S i) (calls s)) db'
  end.

(** A schedule names, step by step, the call that runs next. *)
Definition run (today : date) (user_id daily_limit : Z) (schedule : list nat)
    (s : system) : system :=
  fold_left (fun acc i => step today user_id daily_limit i acc) schedule s.

Definition finished (c : call) : bool :=
  match c with Finished _ => true | _ => false end.

Definition allowed (c : call) : bool :=
  match c with Finished (Returned true) => true | _ => false end.

Definition rejected (c : call) : bool :=
  match c with Finished (Returned false) => true | _ => false end.

Definition count (p : call -> bool) (s : system) : Z :=
  Z.of_nat (length (List.filter p (calls s))).

(** [n] calls issued together. *)
Definition issue (n : nat) (db : database) : system :=
  mksystem (repeat Start n) db.

(** The schedule without overlap: calls [first], [first + 1], ... each run
    their two statements back to back. *)
Definition serial (first n : nat) : list nat :=
  flat_map (fun i => [i; i]) (seq first n).

(** C5 in the words of the specification: of [N + K] calls issued together,
    however their statements interleave, exactly [N] return true and [K]
    return false. *)
Definition exactly_limit_allowed (today : date) (user_id N : Z) (K : nat)
    (db : database) : Prop :=
  forall schedule,
    let s := run today user_id N schedule (issue (Z.to_nat N + K) db) in
    forallb finished (calls s) = true ->
    count allowed s = N /\ count rejected s = Z.of_nat K.

(** A call whose INSERT the table refused. *)
Definition refused (c : call) : bool :=
  match c with Finished (Raised IntegrityError) => true | _ => false end.

(** The counter of the day as it is stored: 0 while the day has no row. *)
Definition stored_calls (today : date) (user_id : Z) (db : database) : Z :=
  match select_usage user_id today (usage_logs db) with
  | Some r => calls_today r
  | None => 0
  end.

(** The id of the row of the day: the one it has, or the one the next
    INSERT gives it. *)
Definition row_id (today : date) (user_id : Z) (db : database) : Z :=
  match select_usage user_id today (usage_logs db) with
  | Some r => ul_id r
  | None => usage_logs_next_id db
  end.

(** What holds of a call in flight once the row of the day exists, with id
    [id0] and counter [cur]: a fetched row is that row with a counter no
    higher than the stored one; a call was only rejected with the stored
    counter at the limit; a call found no row, or had its INSERT refused,
    only when the day began without a row ([fresh]). *)
Definition call_inv (fresh : Prop) (id0 daily_limit cur : Z) (c : call) : Prop :=
  match c with
  | Start => True
  | Fetched None => fresh
  | Fetched (Some x) => ul_id x = id0 /\ calls_today x <= cur
  | Finished (Returned true) => True
  | Finished (Returned false) => daily_limit <= cur
  | Finished (Raised e) => e = IntegrityError /\ fresh
  | Finished Blocked => False
  end.

(** What holds of [n] calls issued together on the database [db0], however
    far they have run.  While the day has no row nothing has been written
    and no call has finished; once it has one, the counter is the counter
    the day began with plus the number of calls allowed so far, and at
    least 1 when the row was inserted by one of the calls. *)
Definition system_inv (today : date) (user_id daily_limit : Z) (db0 : database)
    (n : nat) (s : system) : Prop :=
  length (calls s) = n
  /\ match select_usage user_id today (usage_logs (shared s)) with
     | None =>
         shared s = db0
         /\ Forall (fun c => c = Start \/ c = Fetched None) (calls s)
     | Some r =>
         ul_id r = row_id today user_id db0
         /\ (select_usage user_id today (usage_logs db0) = None -> 1 <= calls_today r)
         /\ calls_today r = stored_calls today user_id db0 + count allowed s
         /\ Forall (call_inv (select_usage user_id today (usage_logs db0) = None)
                      (row_id today user_id db0) daily_limit (calls_today r))
                   (calls s)
     end.

(** A call that, begun with the stored counter at the limit, is on its way
    to a rejection. *)
Definition late (daily_limit : Z) (c : call) : Prop :=
  match c with
  | Start => True
  | Fetched (Some x) => daily_limit <= calls_today x
  | Finished (Returned false) => True
  | _ => False
  end.

(** The row of the day exists and its counter is at the limit. *)
Definition at_limit (today : date) (user_id daily_limit : Z) (db : database)
  : Prop :=
  exists r, select_usage user_id today (usage_logs db) = Some r
            /\ daily_limit <= calls_today r.

End Concurrent.

(** ** Sample data *)

Module Examples.
Import Services.

Definition alice : user := mkuser 1 "alice" "alice@x.com" "key-of-alice" "free".
Definition bob : user := mkuser 2 "bob" "bob@x.com" "key-of-bob" "free".
Definition today : date := mkdate 2024 5 17.

(** A database with the two users registered and the given rows in the
    other two tables. *)
Definition store (usage : list usage_log) (saved : list preset) : database :=
  mkdb [alice; bob] usage saved 3
       (1 + Z.of_nat (length usage)) (1 + Z.of_nat (length saved)).

Definition p1 : preset :=
  mkpreset (VInt 1) (VInt 1) (VStr "p1") (VStr "flask") (VInt 0) (VInt 0) VNull.
Definition p2 : preset :=
  mkpreset (VInt 2) (VInt 2) (VStr "p2") (VStr "fastapi") (VInt 1) (VInt 0) VNull.
Definition p3 : preset :=
  mkpreset (VInt 3) (VInt 1) (VStr "p3") (VStr "flask") (VInt 1) (VInt 1)
           (VStr "MIT").

(** An operating system for the examples, as bare as can be: every call
    returns at once, nothing is kept, and the directory walk finds
    nothing. *)
Definition bare : Os.Runtime := {|
  Os.files := unit;
  Os.Path := string;
  Os.bytes := string;
  Os.zipfile := string;
  Os.http_response := string * list (string * string);
  Os.mkdtemp := fun prefix => ret ("/tmp/" ++ prefix)%string;
  Os.Path_ := fun s => s;
  Os.joinpath := fun p s => (p ++ "/" ++ s)%string;
  Os.str := fun p => p;
  Os.parts := fun p => [p];
  Os.relative_to := fun p _ => Returned p;
  Os.mkdir := fun _ => ret tt;
  Os.write_text := fun _ _ => ret tt;
  Os.rglob := fun _ => ret [];
  Os.is_file := fun _ => ret false;
  Os.rmtree := fun _ => ret tt;
  Os.NamedTemporaryFile := fun suffix => ret ("/tmp/tmp" ++ suffix)%string;
  Os.ZipFile := fun name => ret name;
  Os.zf_write := fun _ _ _ => ret tt;
  Os.zf_close := fun _ => ret tt;
  Os.read_bytes := fun _ => ret "";
  Os.unlink := fun _ => ret tt;
  Os.Response := fun data media_type headers => Returned (media_type, headers);
  Os.list_of_set := fun s => s;
  Os.list_of_set_perm := fun s => Permutation_refl s
|}.

(** A database with nothing on the disc beside it. *)
Definition state (d : database) : Main.app := @Main.mkapp bare d tt.

End Examples.

(** * Properties *)

Ltac run_monad :=
  unfold bind, ret, raise, get, put, try_pass, try_finally in *; simpl in *.

(** Comparisons of integers, from their boolean form. *)
Ltac zbool :=
  repeat match goal with
  | H : context [?a >? ?b] |- _ => rewrite (Z.gtb_ltb a b) in H
  | |- context [?a >? ?b] => rewrite (Z.gtb_ltb a b)
  | H : (?a <? ?b) = true |- _ => apply Z.ltb_lt in H
  | H : (?a <? ?b) = false |- _ => apply Z.ltb_ge in H
  | H : (?a <=? ?b) = true |- _ => apply Z.leb_le in H
  | H : (?a <=? ?b) = false |- _ => apply Z.leb_gt in H
  | H : (?a =? ?b) = true |- _ => apply Z.eqb_eq in H
  | H : (?a =? ?b) = false |- _ => apply Z.eqb_neq in H
  | |- context [?a <=? ?b] => destruct (Z.leb_spec a b)
  | |- context [?a <? ?b] => destruct (Z.ltb_spec a b)
  | |- context [?a =? ?b] => destruct (Z.eqb_spec a b)
  end.

(** ** The quota engine *)

Section QuotaFacts.
Import Services.

Variable today : date.
Variable user_id : Z.

Lemma date_eqb_refl (d : date) : date_eqb d d = true.
Proof. unfold date_eqb. rewrite !Z.eqb_refl. reflexivity. Qed.

Lemma usage_key_new (i c p : Z) :
  usage_key user_id today (mkusage i user_id today c p) = true.
Proof. unfold usage_key; simpl. rewrite Z.eqb_refl, date_eqb_refl. reflexivity. Qed.

Lemma select_usage_app_new (t : list usage_log) (i c p : Z) :
  select_usage user_id today t = None ->
  select_usage user_id today (t ++ [mkusage i user_id today c p])
  = Some (mkusage i user_id today c p).
Proof.
  unfold select_usage. induction t as [|r t IH]; simpl; intros H.
  - rewrite usage_key_new. reflexivity.
  - destruct (usage_key user_id today r); [discriminate | auto].
Qed.

Lemma usage_key_bump_calls (r : usage_log) :
  usage_key user_id today (bump_calls r) = usage_key user_id today r.
Proof. reflexivity. Qed.

Lemma usage_key_bump_projects (r : usage_log) :
  usage_key user_id today (bump_projects r) = usage_key user_id today r.
Proof. reflexivity. Qed.

(** After the UPDATE of the fetched row, the SELECT fetches that row with its
    counter one higher. *)
Lemma select_usage_update_calls (t : list usage_log) (r : usage_log) :
  select_usage user_id today t = Some r ->
  select_usage user_id today
    (map (fun x => if ul_id x =? ul_id r then bump_calls x else x) t)
  = Some (bump_calls r).
Proof.
  unfold select_usage. induction t as [|x t IH]; simpl; intros H; [discriminate|].
  destruct (usage_key user_id today x) eqn:K.
  - injection H as ->. rewrite Z.eqb_refl, usage_key_bump_calls, K. reflexivity.
  - destruct (ul_id x =? ul_id r).
    + rewrite usage_key_bump_calls, K. auto.
    + rewrite K. auto.
Qed.

(** The first call of a day. *)
Lemma first_call_of_day (daily_limit : Z) (db : database) :
  select_usage user_id today (usage_logs db) = None ->
  increment_call_and_check_limit today user_id daily_limit db
  = (Returned true,
     set_usage_logs
       (usage_logs db ++ [mkusage (usage_logs_next_id db) user_id today 1 0])
       (usage_logs_next_id db + 1) db).
Proof.
  intros H. unfold increment_call_and_check_limit, insert_usage. run_monad.
  rewrite H. rewrite H. reflexivity.
Qed.

(** A call that finds the row of the day. *)
Lemma later_call_of_day (daily_limit : Z) (db : database) (r : usage_log) :
  select_usage user_id today (usage_logs db) = Some r ->
  increment_call_and_check_limit today user_id daily_limit db
  = if calls_today r + 1 >? daily_limit
    then (Returned false, db)
    else (Returned true,
          set_usage_logs
            (map (fun x => if ul_id x =? ul_id r then bump_calls x else x)
                 (usage_logs db))
            (usage_logs_next_id db) db).
Proof.
  intros H. unfold increment_call_and_check_limit, update_calls. run_monad.
  rewrite H. destruct (calls_today r + 1 >? daily_limit); reflexivity.
Qed.

(** Sequential calls from a day whose row holds [calls_today = c]: call
    number [k] is allowed exactly when [c + k <= daily_limit]. *)
Lemma daily_calls_from_row (daily_limit : Z) (n : nat) :
  forall (db : database) (r : usage_log) (first : nat),
    select_usage user_id today (usage_logs db) = Some r ->
    fst (daily_calls today user_id daily_limit n db)
    = map (fun k => Returned (calls_today r + Z.of_nat k - Z.of_nat first + 1 <=? daily_limit))
          (seq first n).
Proof.
  induction n as [|n IH]; intros db r first H; [reflexivity|].
  simpl. rewrite (later_call_of_day _ _ _ H).
  destruct (calls_today r + 1 >? daily_limit) eqn:E.
  - specialize (IH db r (S first) H).
    destruct (daily_calls today user_id daily_limit n db) as [os db''].
    simpl in *. rewrite IH. f_equal.
    + f_equal. zbool; lia.
    + apply map_ext_in. intros k Hk. apply in_seq in Hk. f_equal.
      zbool; try reflexivity; lia.
  - pose proof (select_usage_update_calls _ _ H) as H'.
    match goal with
    | |- context [daily_calls _ _ _ n ?d] =>
        specialize (IH d (bump_calls r) (S first) H');
        destruct (daily_calls today user_id daily_limit n d) as [os db'']
    end.
    simpl in *. rewrite IH. f_equal.
    + f_equal. zbool; try reflexivity; lia.
    + apply map_ext_in. intros k Hk. apply in_seq in Hk. f_equal.
      f_equal. lia.
Qed.

(** C1, as amended.  On a day that starts without a row for the user, the
    calls issued one after the other succeed up to call number
    [max daily_limit 1] and fail from then on: for a limit of at least 1
    exactly the first [daily_limit] calls return true, and for a limit of 0
    or less the first call of the day still returns true.  On a day whose
    row is already there with [calls_today = 0], exactly the first
    [daily_limit] calls return true. *)
Theorem daily_calls_sequential (daily_limit : Z) (n : nat) (db : database) :
  (select_usage user_id today (usage_logs db) = None ->
   fst (daily_calls today user_id daily_limit n db)
   = map (fun k => Returned (Z.of_nat k <=? Z.max daily_limit 1)) (seq 1 n)
   /\ exactly_first (Z.max daily_limit 1)
        (fst (daily_calls today user_id daily_limit n db)))
  /\ (forall r, select_usage user_id today (usage_logs db) = Some r ->
                calls_today r = 0 ->
                fst (daily_calls today user_id daily_limit n db)
                = map (fun k => Returned (Z.of_nat k <=? daily_limit)) (seq 1 n)
                /\ exactly_first daily_limit
                     (fst (daily_calls today user_id daily_limit n db))).
Proof.
  assert (X : forall N results,
             results = map (fun k => Returned (Z.of_nat k <=? N)) (seq 1 n) ->
             exactly_first N results).
  { intros N results -> k o Hk.
    rewrite nth_error_map in Hk.
    destruct (nth_error (seq 1 n) k) as [j|] eqn:J; [|discriminate].
    injection Hk as <-.
    assert (k < n)%nat as Hlt.
    { rewrite <- (length_seq n 1). apply nth_error_Some. rewrite J. discriminate. }
    assert (j = S k) as ->.
    { rewrite (nth_error_nth' _ O) in J by now rewrite length_seq.
      rewrite seq_nth in J by exact Hlt. injection J. lia. }
    reflexivity. }
  split.
  - intros H.
    assert (E : fst (daily_calls today user_id daily_limit n db)
                = map (fun k => Returned (Z.of_nat k <=? Z.max daily_limit 1)) (seq 1 n)).
    { destruct n as [|m]; [reflexivity|].
      simpl. rewrite (first_call_of_day daily_limit db H).
      match goal with
      | |- context [daily_calls _ _ _ m ?d] =>
          pose proof (daily_calls_from_row daily_limit m d
                        (mkusage (usage_logs_next_id db) user_id today 1 0) 2
                        (select_usage_app_new _ _ _ _ H)) as R;
          destruct (daily_calls today user_id daily_limit m d) as [os db'']
      end.
      simpl in *. rewrite R. f_equal.
      - f_equal. zbool; [reflexivity | lia].
      - apply map_ext_in. intros k Hk. apply in_seq in Hk. f_equal.
        zbool; try reflexivity; lia. }
    split; [exact E | apply X, E].
  - intros r H Z0.
    assert (E : fst (daily_calls today user_id daily_limit n db)
                = map (fun k => Returned (Z.of_nat k <=? daily_limit)) (seq 1 n)).
    { rewrite (daily_calls_from_row daily_limit n db r 1 H).
      apply map_ext_in. intros k Hk. f_equal. f_equal. lia. }
    split; [exact E | apply X, E].
Qed.

(** C2.  When the user has no row for today, the daily check returns true
    whatever the limit is (0 included) and stores one new row for
    (user, today) with [calls_today = 1]; it raises nothing. *)
Theorem first_call_of_day_always_allowed (daily_limit : Z) (db : database) :
  select_usage user_id today (usage_logs db) = None ->
  exists db',
    increment_call_and_check_limit today user_id daily_limit db
    = (Returned true, db')
    /\ usage_logs db'
       = usage_logs db ++ [mkusage (usage_logs_next_id db) user_id today 1 0]
    /\ select_usage user_id today (usage_logs db')
       = Some (mkusage (usage_logs_next_id db) user_id today 1 0)
    /\ users db' = users db /\ presets db' = presets db.
Proof.
  intros H. eexists. split; [apply first_call_of_day; exact H|].
  simpl. repeat split. apply select_usage_app_new. exact H.
Qed.

(** The monthly check never returns false after a write. *)
Lemma monthly_check_outcome (month_limit : Z) (db : database) :
  increment_project_and_check_limit today user_id month_limit db
  = if month_total today user_id db + 1 >? month_limit
    then (Returned false, db)
    else
      match select_usage user_id today (usage_logs db) with
      | None =>
          (Returned true,
           set_usage_logs
             (usage_logs db ++ [mkusage (usage_logs_next_id db) user_id today 0 1])
             (usage_logs_next_id db + 1) db)
      | Some row =>
          (Returned true,
           set_usage_logs
             (map (fun x => if ul_id x =? ul_id row then bump_projects x else x)
                  (usage_logs db))
             (usage_logs_next_id db) db)
      end.
Proof.
  unfold increment_project_and_check_limit, insert_usage, update_projects.
  run_monad.
  destruct (month_total today user_id db + 1 >? month_limit); [reflexivity|].
  destruct (select_usage user_id today (usage_logs db)) eqn:S; [reflexivity|].
  rewrite S. reflexivity.
Qed.

(** C3.  A rejected check stores nothing.  Daily: when today's row has
    [calls_today + 1 > daily_limit] the check returns false and the
    database is the one it started from.  Monthly: when the month's total
    plus one exceeds the limit the check returns false and the database is
    the one it started from.  Conversely, whenever either check returns
    false the database is unchanged. *)
Theorem rejected_check_mutates_nothing (limit : Z) (db : database) :
  (forall r, select_usage user_id today (usage_logs db) = Some r ->
             calls_today r + 1 > limit ->
             increment_call_and_check_limit today user_id limit db
             = (Returned false, db))
  /\ (forall db', increment_call_and_check_limit today user_id limit db
                  = (Returned false, db') -> db' = db)
  /\ (month_total today user_id db + 1 > limit ->
      increment_project_and_check_limit today user_id limit db
      = (Returned false, db))
  /\ (forall db', increment_project_and_check_limit today user_id limit db
                  = (Returned false, db') -> db' = db).
Proof.
  repeat split.
  - intros r H Hgt. rewrite (later_call_of_day _ _ _ H).
    destruct (calls_today r + 1 >? limit) eqn:E; [reflexivity | zbool; lia].
  - intros db' H.
    destruct (select_usage user_id today (usage_logs db)) as [r|] eqn:S.
    + rewrite (later_call_of_day _ _ _ S) in H.
      destruct (calls_today r + 1 >? limit); congruence.
    + rewrite (first_call_of_day _ _ S) in H. discriminate.
  - intros Hgt. rewrite monthly_check_outcome.
    destruct (month_total today user_id db + 1 >? limit) eqn:E;
      [reflexivity | zbool; lia].
  - intros db' H. rewrite monthly_check_outcome in H.
    destruct (month_total today user_id db + 1 >? limit).
    + congruence.
    + destruct (select_usage user_id today (usage_logs db)); discriminate.
Qed.

(** *** The monthly total *)

Lemma fold_projects_init (l : list usage_log) (a : Z) :
  fold_left (fun acc x => acc + projects_this_month x) l a
  = a + fold_left (fun acc x => acc + projects_this_month x) l 0.
Proof.
  revert a. induction l as [|x l IH]; intros a; simpl; [lia|].
  rewrite (IH (a + projects_this_month x)), (IH (0 + projects_this_month x)). lia.
Qed.

Lemma spec_month_sum_filter (t : list usage_log) :
  spec_month_sum today user_id t
  = fold_left (fun acc x => acc + projects_this_month x)
      (List.filter (in_month user_id (first_of_month today)) t) 0.
Proof.
  induction t as [|r t IH]; simpl; [reflexivity|].
  unfold in_month at 1.
  destruct ((ul_user_id r =? user_id) && date_leb (first_of_month today) (log_date r));
    simpl; rewrite IH; [|lia].
  rewrite (fold_projects_init _ (0 + projects_this_month r)). lia.
Qed.

Lemma month_total_spec (db : database) :
  month_total today user_id db = spec_month_sum today user_id (usage_logs db).
Proof.
  unfold month_total, select_sum_projects. rewrite spec_month_sum_filter.
  destruct (List.filter (in_month user_id (first_of_month today)) (usage_logs db))
    as [|r rs]; simpl; [reflexivity|].
  rewrite (fold_projects_init rs (projects_this_month r)),
          (fold_projects_init rs (0 + projects_this_month r)).
  destruct (_ =? 0) eqn:E; zbool; lia.
Qed.

Lemma spec_month_sum_app (t1 t2 : list usage_log) :
  spec_month_sum today user_id (t1 ++ t2)
  = spec_month_sum today user_id t1 + spec_month_sum today user_id t2.
Proof. induction t1 as [|r t1 IH]; simpl; [reflexivity | rewrite IH; lia]. Qed.

Lemma earlier_month_before_first (d : date) :
  earlier_month d today -> date_leb (first_of_month today) d = false.
Proof.
  unfold earlier_month, date_leb, first_of_month; simpl. intros H.
  repeat (zbool; simpl); try reflexivity; lia.
Qed.

Lemma same_month_from_first (d : date) :
  same_month d today -> date_leb (first_of_month today) d = true.
Proof.
  unfold same_month, date_leb, first_of_month; simpl. intros H.
  repeat (zbool; simpl); try reflexivity; lia.
Qed.

(** C4.  The total the monthly check compares with the limit is the sum of
    [projects_this_month] over the rows of the user dated on or after the
    first day of the current month, and the check returns false exactly
    when that sum plus one exceeds the limit.  A row of an earlier month or
    of another user adds nothing to it; a row of the current month, on
    whichever day, adds its [projects_this_month]. *)
Theorem month_total_is_current_month_sum (month_limit : Z) (db : database) :
  month_total today user_id db = spec_month_sum today user_id (usage_logs db)
  /\ fst (increment_project_and_check_limit today user_id month_limit db)
     = Returned (spec_month_sum today user_id (usage_logs db) + 1 <=? month_limit)
  /\ (forall t1 t2 r db',
        usage_logs db = t1 ++ t2 -> usage_logs db' = t1 ++ r :: t2 ->
        (earlier_month (log_date r) today \/ ul_user_id r <> user_id ->
         month_total today user_id db' = month_total today user_id db)
        /\ (same_month (log_date r) today -> ul_user_id r = user_id ->
            month_total today user_id db'
            = month_total today user_id db + projects_this_month r)).
Proof.
  split; [apply month_total_spec|]. split.
  - rewrite monthly_check_outcome, month_total_spec.
    destruct (_ >? _) eqn:E; simpl.
    + f_equal. zbool; [lia | reflexivity].
    + destruct (select_usage user_id today (usage_logs db)); simpl;
        f_equal; zbool; try reflexivity; lia.
  - intros t1 t2 r db' E E'. rewrite !month_total_spec, E, E'.
    rewrite !spec_month_sum_app. simpl. split.
    + intros [H | H].
      * rewrite (earlier_month_before_first _ H), andb_false_r. lia.
      * apply Z.eqb_neq in H. rewrite H. simpl. lia.
    + intros H U. rewrite (same_month_from_first _ H).
      apply Z.eqb_eq in U. rewrite U. simpl. lia.
Qed.

End QuotaFacts.

(** The monthly total on three rows of one user: April's row is left out,
    the two rows of May are both counted. *)
Example month_total_across_days :
  Services.month_total Examples.today 1
    (Examples.store
       [ Services.mkusage 1 1 (mkdate 2024 4 30) 9 4;
         Services.mkusage 2 1 (mkdate 2024 5 1) 3 2;
         Services.mkusage 3 1 (mkdate 2024 5 16) 5 1 ] [])
  = 3.
Proof. reflexivity. Qed.

(** C1 fails as stated: with a limit of 0 the first call of the day is
    allowed, so it is not the case that exactly the first 0 calls succeed. *)
Lemma daily_limit_zero_first_call_succeeds :
  ~ Services.exactly_first 0
      (fst (Services.daily_calls Examples.today 1 0 1 (Examples.store [] []))).
Proof.
  intros H. specialize (H O _ eq_refl). discriminate H.
Qed.

Lemma daily_calls_sequential_witness :
  fst (Services.daily_calls Examples.today 1 2 4 (Examples.store [] []))
  = [Returned true; Returned true; Returned false; Returned false]
  /\ fst (Services.daily_calls Examples.today 1 0 2
            (Examples.store [Services.mkusage 1 1 Examples.today 0 0] []))
     = [Returned false; Returned false].
Proof.
  split.
  - apply (daily_calls_sequential Examples.today 1 2 4 (Examples.store [] [])).
    reflexivity.
  - apply (proj2 (daily_calls_sequential Examples.today 1 0 2
                    (Examples.store [Services.mkusage 1 1 Examples.today 0 0] []))
             (Services.mkusage 1 1 Examples.today 0 0));
      reflexivity.
Defined.

Lemma first_call_of_day_always_allowed_witness :
  exists db',
    Services.increment_call_and_check_limit Examples.today 1 0
      (Examples.store [] []) = (Returned true, db')
    /\ Services.usage_logs db' = [Services.mkusage 1 1 Examples.today 1 0].
Proof.
  destruct (first_call_of_day_always_allowed Examples.today 1 0
              (Examples.store [] []) eq_refl)
    as [db' [E [L _]]].
  exists db'. split; [exact E | exact L].
Defined.

Lemma rejected_check_mutates_nothing_witness :
  Services.increment_call_and_check_limit Examples.today 1 2
    (Examples.store [Services.mkusage 1 1 Examples.today 2 2] [])
  = (Returned false, Examples.store [Services.mkusage 1 1 Examples.today 2 2] [])
  /\ Services.increment_project_and_check_limit Examples.today 1 2
       (Examples.store [Services.mkusage 1 1 Examples.today 2 2] [])
     = (Returned false, Examples.store [Services.mkusage 1 1 Examples.today 2 2] []).
Proof.
  destruct (rejected_check_mutates_nothing Examples.today 1 2
              (Examples.store [Services.mkusage 1 1 Examples.today 2 2] []))
    as [D [_ [P _]]].
  split.
  - apply (D (Services.mkusage 1 1 Examples.today 2 2)); [reflexivity | simpl; lia].
  - apply P. vm_compute. reflexivity.
Defined.

Lemma month_total_is_current_month_sum_witness :
  Services.month_total Examples.today 1
    (Examples.store [ Services.mkusage 1 1 (mkdate 2024 5 1) 3 2;
                      Services.mkusage 2 1 (mkdate 2024 4 30) 9 4 ] [])
  = Services.month_total Examples.today 1
      (Examples.store [Services.mkusage 1 1 (mkdate 2024 5 1) 3 2] [])
  /\ Services.month_total Examples.today 1
       (Examples.store [ Services.mkusage 1 1 (mkdate 2024 5 1) 3 2;
                         Services.mkusage 2 1 (mkdate 2024 5 16) 5 1 ] [])
     = Services.month_total Examples.today 1
         (Examples.store [Services.mkusage 1 1 (mkdate 2024 5 1) 3 2] []) + 1.
Proof.
  destruct (month_total_is_current_month_sum Examples.today 1 5
              (Examples.store [Services.mkusage 1 1 (mkdate 2024 5 1) 3 2] []))
    as [_ [_ H]].
  split.
  - apply (H [Services.mkusage 1 1 (mkdate 2024 5 1) 3 2] []
             (Services.mkusage 2 1 (mkdate 2024 4 30) 9 4));
      [reflexivity | reflexivity |].
    left. right. simpl. lia.
  - apply (H [Services.mkusage 1 1 (mkdate 2024 5 1) 3 2] []
             (Services.mkusage 2 1 (mkdate 2024 5 16) 5 1));
      [reflexivity | reflexivity | | reflexivity].
    unfold Services.same_month. simpl. lia.
Defined.

(** ** Presets *)

Section PresetFacts.
Import Services.

Lemma column_value_assign_same (c : column) (v : sqlval) (r : preset) :
  column_value c (assign c v r) = v.
Proof. destruct c; reflexivity. Qed.

Lemma column_value_assign_other (c c' : column) (v : sqlval) (r : preset) :
  c <> c' -> column_value c (assign c' v r) = column_value c r.
Proof. destruct c, c'; intros H; try reflexivity; congruence. Qed.

Lemma assign_all_untouched (c : column) (set_clause : list (column * sqlval)) :
  forall r, ~ In c (map fst set_clause) ->
            column_value c (assign_all set_clause r) = column_value c r.
Proof.
  unfold assign_all.
  induction set_clause as [|[c' v'] l IH]; intros r H; simpl in *; [reflexivity|].
  rewrite IH by tauto. apply column_value_assign_other. intros ->. tauto.
Qed.

Lemma assign_all_supplied (c : column) (v : sqlval)
    (set_clause : list (column * sqlval)) :
  forall r, List.NoDup (map fst set_clause) -> In (c, v) set_clause ->
            column_value c (assign_all set_clause r) = v.
Proof.
  induction set_clause as [|[c' v'] l IH]; intros r D H; simpl in *; [tauto|].
  inversion D as [|? ? Hnot D']; subst.
  destruct H as [H | H].
  - injection H as -> ->.
    change (column_value c (assign_all l (assign c v r)) = v).
    rewrite assign_all_untouched by exact Hnot.
    apply column_value_assign_same.
  - apply (IH (assign c' v' r) D' H).
Qed.

(** A SET clause over editable columns leaves the key of the row alone. *)
Lemma preset_key_assign_all (i u : sqlval) (set_clause : list (column * sqlval))
    (r : preset) :
  Forall (fun c => editable c = true) (map fst set_clause) ->
  preset_key i u (assign_all set_clause r) = preset_key i u r.
Proof.
  intros E. unfold preset_key.
  change (p_id (assign_all set_clause r)) with (column_value c_id (assign_all set_clause r)).
  change (p_user_id (assign_all set_clause r))
    with (column_value c_user_id (assign_all set_clause r)).
  rewrite !assign_all_untouched; [reflexivity| |];
    intros H; rewrite List.Forall_forall in E; apply E in H; discriminate.
Qed.

Lemma find_map_fixing_key {A} (key : A -> bool) (g : A -> A) (t : list A) :
  (forall x, key x = true -> key (g x) = true) ->
  List.find key (map (fun x => if key x then g x else x) t)
  = option_map g (List.find key t).
Proof.
  intros K. induction t as [|x t IH]; simpl; [reflexivity|].
  destruct (key x) eqn:E.
  - rewrite (K x E). reflexivity.
  - rewrite E. exact IH.
Qed.

Lemma map_fixing_none {A} (key : A -> bool) (g : A -> A) (t : list A) :
  List.find key t = None ->
  map (fun x => if key x then g x else x) t = t.
Proof.
  induction t as [|x t IH]; simpl; [reflexivity|].
  destruct (key x); [discriminate|]. intros H. rewrite (IH H). reflexivity.
Qed.

Lemma set_presets_same (db : database) :
  set_presets (presets db) (presets_next_id db) db = db.
Proof. destruct db; reflexivity. Qed.

(** The statement [update_preset] sends for a non-empty dict, and what it
    returns. *)
Lemma update_preset_outcome (user_id preset_id : Z)
    (data : list (column * pyval)) (db : database) :
  data <> [] ->
  let key := preset_key (VInt preset_id) (VInt user_id) in
  let set_clause := map (fun cv => (fst cv, to_sql (snd cv))) data in
  let db' := set_presets
               (map (fun r => if key r then assign_all set_clause r else r)
                    (presets db))
               (presets_next_id db) db in
  update_preset user_id preset_id data db
  = (Returned (List.find key (presets db')), db').
Proof.
  intros Hne key set_clause db'.
  unfold update_preset, execute_update, get_preset.
  rewrite skipn_app, firstn_app.
  rewrite !length_map.
  replace (length data - length data)%nat with O by lia.
  rewrite skipn_all2, firstn_all2 by (rewrite length_map; lia).
  simpl. rewrite app_nil_r.
  assert (C : combine (map fst data) (map to_sql (map snd data)) = set_clause).
  { unfold set_clause. clear. induction data as [|[c v] l IH]; simpl; [reflexivity|].
    rewrite IH. reflexivity. }
  rewrite C.
  destruct data as [|cv l]; [congruence|]. simpl. run_monad. reflexivity.
Qed.

Lemma update_preset_empty (user_id preset_id : Z) (db : database) :
  update_preset user_id preset_id [] db = (Raised ProgrammingError, db).
Proof. reflexivity. Qed.

(** C8, as amended.  For a non-empty set of fields drawn from name,
    template, git_init, use_venv and license_type, [update_preset] changes
    exactly the supplied fields of the preset that matches the id and the
    owner, and returns the row as it is stored after the update.  Row by
    row: a row that matches is stored with the supplied fields set to the
    supplied values and every other field as before; a row that does not
    match is stored as it was; no row is added or removed and the other
    tables are untouched.  When no preset matches both id and owner the call
    returns "not found" and the database is unchanged. *)
Theorem update_preset_partial (user_id preset_id : Z)
    (data : list (column * pyval)) (db : database) :
  data <> [] ->
  List.NoDup (map fst data) ->
  Forall (fun c => editable c = true) (map fst data) ->
  let key := preset_key (VInt preset_id) (VInt user_id) in
  let db' := snd (update_preset user_id preset_id data db) in
  update_as_specified user_id preset_id data db
  /\ fst (update_preset user_id preset_id data db)
     = Returned (List.find key (presets db'))
  /\ (List.find key (presets db) = None ->
      update_preset user_id preset_id data db = (Returned None, db))
  /\ (forall i x,
        nth_error (presets db) i = Some x ->
        exists x',
          nth_error (presets db') i = Some x'
          /\ if key x
             then key x' = true
                  /\ (forall c v, In (c, v) data -> column_value c x' = to_sql v)
                  /\ (forall c, ~ In c (map fst data) ->
                                column_value c x' = column_value c x)
             else x' = x)
  /\ length (presets db') = length (presets db)
  /\ db' = set_presets (presets db') (presets_next_id db) db.
Proof.
  intros Hne Hdup Hed key db'.
  pose proof (update_preset_outcome user_id preset_id data db Hne) as O.
  simpl in O. fold key in O.
  set (set_clause := map (fun cv => (fst cv, to_sql (snd cv))) data) in *.
  assert (F : map fst set_clause = map fst data).
  { unfold set_clause. rewrite map_map. reflexivity. }
  assert (K : forall x, key x = true -> key (assign_all set_clause x) = true).
  { intros x Hx. unfold key. rewrite preset_key_assign_all; [exact Hx|].
    rewrite F. exact Hed. }
  assert (Sup : forall x c v, In (c, v) data ->
                              column_value c (assign_all set_clause x) = to_sql v).
  { intros x c v Hin. apply assign_all_supplied.
    - rewrite F. exact Hdup.
    - unfold set_clause.
      apply (in_map (fun cv => (fst cv, to_sql (snd cv))) data (c, v) Hin). }
  assert (Uns : forall x c, ~ In c (map fst data) ->
                            column_value c (assign_all set_clause x) = column_value c x).
  { intros x c Hc. apply assign_all_untouched. rewrite F. exact Hc. }
  assert (D : presets db'
              = map (fun r => if key r then assign_all set_clause r else r)
                    (presets db)).
  { unfold db'. rewrite O. reflexivity. }
  pose proof (find_map_fixing_key key (assign_all set_clause) (presets db) K) as Fd.
  rewrite <- D in Fd.
  split; [|split; [|split; [|split; [|split]]]].
  - unfold update_as_specified. fold key.
    destruct (List.find key (presets db)) as [r|] eqn:E.
    + exists (assign_all set_clause r), db'. split; [|split; [|split]].
      * unfold db'. rewrite O. cbn [snd]. f_equal.
        rewrite (find_map_fixing_key key (assign_all set_clause) (presets db) K), E.
        reflexivity.
      * exact Fd.
      * intros c v Hin. apply Sup, Hin.
      * intros c Hc. apply Uns, Hc.
    + exists db'. unfold db'. rewrite O. cbn [snd]. f_equal.
      rewrite (find_map_fixing_key key (assign_all set_clause) (presets db) K), E.
      reflexivity.
  - unfold db'. rewrite O. reflexivity.
  - intros E. rewrite O.
    rewrite (map_fixing_none key _ _ E), set_presets_same, E. reflexivity.
  - intros i x Hx. rewrite D, nth_error_map, Hx. cbn [option_map].
    eexists. split; [reflexivity|].
    destruct (key x) eqn:Hk; [|reflexivity].
    split; [exact (K x Hk)|]. split; [apply Sup | apply Uns].
  - rewrite D. apply length_map.
  - unfold db'. rewrite O. reflexivity.
Qed.

(** What the PUT handler passes on: all five fields of the request model,
    so a field the client left out is written with its default. *)
Lemma put_preset_writes_every_field (p : Main.PresetIn) :
  map fst (Main.PresetIn_dict p)
  = [c_name; c_template; c_git_init; c_use_venv; c_license_type].
Proof. reflexivity. Qed.

(** *** Owner scoping *)

Lemma preset_key_owned (preset_id user_id : Z) (r : preset) :
  preset_key (VInt preset_id) (VInt user_id) r
  = sql_eqb (p_id r) (VInt preset_id) && owned_by user_id r.
Proof. reflexivity. Qed.

Lemma owned_by_one_user (A B : Z) (r : preset) :
  A <> B -> owned_by B r = true -> owned_by A r = false.
Proof.
  unfold owned_by. destruct (p_user_id r); simpl; try discriminate.
  intros H E. zbool; [lia | reflexivity].
Qed.

Lemma find_and_filter {X} (p q : X -> bool) (t : list X) :
  List.find (fun x => p x && q x) t = List.find p (List.filter q t).
Proof.
  induction t as [|x t IH]; simpl; [reflexivity|].
  destruct (q x); simpl.
  - destruct (p x); [reflexivity | exact IH].
  - rewrite andb_false_r. exact IH.
Qed.

Lemma filter_and_filter {X} (p q : X -> bool) (t : list X) :
  List.filter (fun x => p x && q x) t = List.filter p (List.filter q t).
Proof.
  induction t as [|x t IH]; simpl; [reflexivity|].
  destruct (q x); simpl.
  - destruct (p x); simpl; rewrite IH; reflexivity.
  - rewrite andb_false_r. exact IH.
Qed.

Lemma filter_after_delete {X} (p q : X -> bool) (t : list X) :
  List.filter q (List.filter (fun x => negb (p x && q x)) t)
  = List.filter (fun x => negb (p x)) (List.filter q t).
Proof.
  induction t as [|x t IH]; simpl; [reflexivity|].
  destruct (q x) eqn:Q; simpl.
  - rewrite andb_true_r. destruct (p x); simpl; rewrite ?Q, IH; reflexivity.
  - rewrite andb_false_r. simpl. rewrite Q. exact IH.
Qed.

Lemma filter_map_own {X} (q : X -> bool) (f : X -> X) (t : list X) :
  (forall x, q x = false -> f x = x) ->
  List.filter q (map f t) = List.filter q (map f (List.filter q t)).
Proof.
  intros H. induction t as [|x t IH]; simpl; [reflexivity|].
  destruct (q x) eqn:Q; simpl.
  - rewrite IH. reflexivity.
  - rewrite (H x Q), Q. exact IH.
Qed.

Lemma filter_keeps_others {X} (q k : X -> bool) (t : list X) :
  (forall x, q x = true -> k x = true) ->
  List.filter q (List.filter k t) = List.filter q t.
Proof.
  intros H. induction t as [|x t IH]; simpl; [reflexivity|].
  destruct (k x) eqn:K; simpl.
  - rewrite IH. reflexivity.
  - destruct (q x) eqn:Q; [rewrite (H x Q) in K; discriminate | exact IH].
Qed.

(** What [update_preset] answers, and what it leaves of the user's presets,
    is a function of that user's presets alone. *)
Lemma update_preset_own_rows (A preset_id : Z) (data : list (column * pyval))
    (db : database) :
  data <> [] ->
  let f := fun r => if sql_eqb (p_id r) (VInt preset_id) && owned_by A r
                    then assign_all (map (fun cv => (fst cv, to_sql (snd cv))) data) r
                    else r in
  fst (update_preset A preset_id data db)
  = Returned (List.find (fun r => sql_eqb (p_id r) (VInt preset_id))
                (List.filter (owned_by A) (map f (presets_of A db))))
  /\ presets_of A (snd (update_preset A preset_id data db))
     = List.filter (owned_by A) (map f (presets_of A db)).
Proof.
  intros Hne f.
  rewrite (update_preset_outcome A preset_id data db Hne). simpl.
  unfold presets_of. simpl.
  assert (Fx : forall x, owned_by A x = false -> f x = x).
  { intros x Hx. unfold f. rewrite Hx, andb_false_r. reflexivity. }
  split.
  - f_equal.
    rewrite (find_and_filter (fun r => sql_eqb (p_id r) (VInt preset_id)) (owned_by A)).
    f_equal. apply (filter_map_own (owned_by A) f _ Fx).
  - apply (filter_map_own (owned_by A) f _ Fx).
Qed.

(** C9.  For two distinct users A and B: what [get_preset], [list_presets],
    [update_preset] and [delete_preset] answer to A, and what they leave of
    A's presets, is the same in any two databases that hold the same presets
    of A, whatever presets of B they hold; no row they return to A is owned
    by B; and A's update and delete leave every preset of B in place and
    unchanged. *)
Theorem presets_owner_scoped (A B preset_id : Z) (data : list (column * pyval))
    (db1 db2 : database) :
  A <> B ->
  presets_of A db1 = presets_of A db2 ->
  (get_preset A preset_id db1 = (fst (get_preset A preset_id db2), db1)
   /\ list_presets A db1 = (fst (list_presets A db2), db1)
   /\ fst (update_preset A preset_id data db1)
      = fst (update_preset A preset_id data db2)
   /\ presets_of A (snd (update_preset A preset_id data db1))
      = presets_of A (snd (update_preset A preset_id data db2))
   /\ fst (delete_preset A preset_id db1) = fst (delete_preset A preset_id db2)
   /\ presets_of A (snd (delete_preset A preset_id db1))
      = presets_of A (snd (delete_preset A preset_id db2)))
  /\ ((forall r, fst (get_preset A preset_id db1) = Returned (Some r) ->
                 owned_by B r = false)
      /\ (forall rows, fst (list_presets A db1) = Returned rows ->
                       Forall (fun r => owned_by B r = false) rows)
      /\ (forall r, fst (update_preset A preset_id data db1) = Returned (Some r) ->
                    owned_by B r = false))
  /\ ((forall i x, nth_error (presets db1) i = Some x -> owned_by B x = true ->
         nth_error (presets (snd (update_preset A preset_id data db1))) i = Some x)
      /\ presets_of B (snd (delete_preset A preset_id db1)) = presets_of B db1).
Proof.
  intros Hne Hsame.
  assert (OA : forall r, owned_by A r = true -> owned_by B r = false).
  { intros r H. destruct (owned_by B r) eqn:E; [|reflexivity].
    rewrite (owned_by_one_user A B r Hne E) in H. discriminate. }
  assert (G : forall db, fst (get_preset A preset_id db)
                         = Returned (List.find (fun r => sql_eqb (p_id r) (VInt preset_id))
                                       (presets_of A db))).
  { intros db. unfold get_preset, presets_of. run_monad. f_equal.
    apply (find_and_filter (fun r => sql_eqb (p_id r) (VInt preset_id)) (owned_by A)). }
  assert (D : forall db,
             fst (delete_preset A preset_id db)
             = Returned (Z.of_nat (length (List.filter
                                             (fun r => sql_eqb (p_id r) (VInt preset_id))
                                             (presets_of A db))) >? 0)
             /\ presets_of A (snd (delete_preset A preset_id db))
                = List.filter (fun r => negb (sql_eqb (p_id r) (VInt preset_id)))
                    (presets_of A db)).
  { intros db. unfold delete_preset, presets_of. run_monad. split.
    - rewrite <- (filter_and_filter (fun r => sql_eqb (p_id r) (VInt preset_id))
                                     (owned_by A)).
      reflexivity.
    - apply (filter_after_delete (fun r => sql_eqb (p_id r) (VInt preset_id)) (owned_by A)). }
  split; [|split].
  - split; [|split; [|split; [|split; [|split]]]].
    + unfold get_preset in *. run_monad. f_equal. f_equal.
      pose proof (G db1) as G1. pose proof (G db2) as G2.
      unfold get_preset in G1, G2. run_monad. congruence.
    + unfold list_presets. run_monad. f_equal. f_equal. exact Hsame.
    + destruct data as [|cv l]; [reflexivity|].
      destruct (update_preset_own_rows A preset_id (cv :: l) db1) as [E1 _];
        [discriminate|].
      destruct (update_preset_own_rows A preset_id (cv :: l) db2) as [E2 _];
        [discriminate|].
      rewrite E1, E2, Hsame. reflexivity.
    + destruct data as [|cv l]; [exact Hsame|].
      destruct (update_preset_own_rows A preset_id (cv :: l) db1) as [_ E1];
        [discriminate|].
      destruct (update_preset_own_rows A preset_id (cv :: l) db2) as [_ E2];
        [discriminate|].
      rewrite E1, E2, Hsame. reflexivity.
    + rewrite (proj1 (D db1)), (proj1 (D db2)), Hsame. reflexivity.
    + rewrite (proj2 (D db1)), (proj2 (D db2)), Hsame. reflexivity.
  - split; [|split].
    + intros r H. rewrite G in H. injection H as H.
      apply find_some in H. destruct H as [H _].
      apply filter_In in H. apply OA, H.
    + intros rows H. unfold list_presets in H. run_monad. injection H as <-.
      apply List.Forall_forall. intros r H. apply filter_In in H. apply OA, H.
    + intros r H. destruct data as [|cv l]; [discriminate|].
      destruct (update_preset_own_rows A preset_id (cv :: l) db1) as [E1 _];
        [discriminate|].
      rewrite E1 in H. injection H as H.
      apply find_some in H. destruct H as [H _].
      apply filter_In in H. apply OA, H.
  - split.
    + intros i x Hx HB.
      destruct data as [|cv l]; [exact Hx|].
      rewrite (update_preset_outcome A preset_id (cv :: l) db1) by discriminate.
      simpl. rewrite nth_error_map, Hx. simpl.
      rewrite preset_key_owned, (owned_by_one_user A B x Hne HB), andb_false_r.
      reflexivity.
    + unfold delete_preset, presets_of. run_monad.
      apply filter_keeps_others. intros x HB.
      rewrite preset_key_owned, (owned_by_one_user A B x Hne HB), andb_false_r.
      reflexivity.
Qed.

End PresetFacts.

Lemma update_preset_partial_witness :
  Services.update_as_specified 1 1 [(Services.c_git_init, PBool true)]
    (Examples.store [] [Examples.p1; Examples.p2])
  /\ Services.presets
       (snd (Services.update_preset 1 1 [(Services.c_git_init, PBool true)]
               (Examples.store [] [Examples.p1; Examples.p2])))
     = [Services.mkpreset (Services.VInt 1) (Services.VInt 1) (Services.VStr "p1")
          (Services.VStr "flask") (Services.VInt 1) (Services.VInt 0) Services.VNull;
        Examples.p2].
Proof.
  split; [|reflexivity].
  apply update_preset_partial.
  - discriminate.
  - constructor; [simpl; tauto | constructor].
  - repeat constructor.
Defined.

(** C8 fails as stated on two kinds of field sets.  With no field at all the
    statement has an empty SET clause and the call raises instead of
    returning the row; with [user_id] among the fields the row changes
    owner and the call answers "not found" although a preset matched. *)
Lemma update_preset_not_as_specified :
  ~ Services.update_as_specified 1 1 []
      (Examples.store [] [Examples.p1; Examples.p2])
  /\ ~ Services.update_as_specified 1 1 [(Services.c_user_id, PInt 2)]
         (Examples.store [] [Examples.p1; Examples.p2]).
Proof.
  split; intros [r' [db' [H _]]]; vm_compute in H; discriminate H.
Qed.

(** Through the PUT handler no update is partial: a body with only the
    required fields resets [git_init], [use_venv] and [license_type] of the
    stored preset to the defaults of the request model. *)
Example put_preset_resets_omitted_fields :
  fst (Main.put_preset 3 (Main.PresetIn_required "p3" "flask") Examples.alice
         (Examples.state (Examples.store [] [Examples.p3])))
  = Returned
      (Main.PresetRow
         (Some (Services.mkpreset (Services.VInt 3) (Services.VInt 1)
                  (Services.VStr "p3") (Services.VStr "flask")
                  (Services.VInt 0) (Services.VInt 0) Services.VNull))).
Proof. reflexivity. Qed.

Lemma presets_owner_scoped_witness :
  fst (Services.delete_preset 1 2 (Examples.store [] [Examples.p2; Examples.p1]))
  = fst (Services.delete_preset 1 2 (Examples.store [] [Examples.p1]))
  /\ Services.presets_of 2
       (snd (Services.delete_preset 1 2
               (Examples.store [] [Examples.p2; Examples.p1])))
     = [Examples.p2].
Proof.
  destruct (presets_owner_scoped 1 2 2 [(Services.c_name, PStr "x")]
              (Examples.store [] [Examples.p2; Examples.p1])
              (Examples.store [] [Examples.p1]))
    as [[_ [_ [_ [_ [D _]]]]] [_ [_ K]]].
  - lia.
  - reflexivity.
  - split; [exact D | exact K].
Defined.

(** ** The request gate *)

Section GateFacts.
Import Services Utils Main.

Variable L : limits.
Variable today : date.

Context {OS : Os.Runtime}.

Lemma require_api_key_outcome (key : string) (d : database) :
  key <> "" ->
  require_api_key L today (Some key) d
  = match List.find (fun u => String.eqb (api_key u) key) (users d) with
    | None => (Raised (HTTPException 401 "Invalid API key"), d)
    | Some user =>
        match increment_call_and_check_limit today (u_id user) (DAILY_LIMIT L) d with
        | (Returned true, d') => (Returned user, d')
        | (Returned false, d') =>
            (Raised (HTTPException 429 "Daily API call limit exceeded"), d')
        | (Raised e, d') => (Raised e, d')
        | (Blocked, d') => (Blocked, d')
        end
    end.
Proof.
  intros Hk. apply String.eqb_neq in Hk.
  unfold require_api_key, get_user_by_api_key. rewrite Hk. run_monad.
  destruct (List.find _ (users d)) as [user|]; [|reflexivity].
  destruct (increment_call_and_check_limit today (u_id user) (DAILY_LIMIT L) d)
    as [[[|]|e|] d']; reflexivity.
Qed.

Lemma find_none_of {X} (p : X -> bool) (l : list X) :
  Forall (fun x => p x = false) l -> List.find p l = None.
Proof.
  induction 1 as [|x l Hx _ IH]; simpl; [reflexivity|]. rewrite Hx. exact IH.
Qed.

Lemma find_first_of {X} (p : X -> bool) (before after : list X) (x : X) :
  Forall (fun y => p y = false) before -> p x = true ->
  List.find p (before ++ x :: after) = Some x.
Proof.
  induction 1 as [|y l Hy _ IH]; simpl; intros Hx.
  - rewrite Hx. reflexivity.
  - rewrite Hy. exact (IH Hx).
Qed.

Lemma other_keys (key : string) (l : list user) :
  Forall (fun u => api_key u <> key) l ->
  Forall (fun u => String.eqb (api_key u) key = false) l.
Proof.
  apply List.Forall_impl. intros u H. apply String.eqb_neq, H.
Qed.

(** C7.  The gate, in order, on the [users] table as it stands.  A missing
    (or empty) key is rejected with 401.  Otherwise, when no row of [users]
    carries the key, the request is rejected with 401.  Otherwise the first
    row that carries it is the user, and the daily check decides: when it
    returns false the request is rejected with 429, when it returns true
    the handler runs with that user.  In the three rejections no handler
    runs.  A project creation that passed the gate consults the monthly
    check next: when it returns false the request is rejected with 429 and
    the file system has not been touched; when it returns true the project
    is generated, on the database that already counts it. *)
Theorem request_gate_protocol (x_api_key : option string) (s : app) :
  (no_key x_api_key = true ->
   require_api_key L today x_api_key (db s)
   = (Raised (HTTPException 401 "Missing X-API-Key header"), db s)
   /\ forall handler,
        Depends L today x_api_key handler s
        = (Raised (HTTPException 401 "Missing X-API-Key header"), s))
  /\ (forall key, x_api_key = Some key -> key <> "" ->
        (Forall (fun u => api_key u <> key) (users (db s)) ->
         require_api_key L today x_api_key (db s)
         = (Raised (HTTPException 401 "Invalid API key"), db s)
         /\ forall handler,
              Depends L today x_api_key handler s
              = (Raised (HTTPException 401 "Invalid API key"), s))
        /\ (forall before user after ok d',
              users (db s) = before ++ user :: after ->
              Forall (fun u => api_key u <> key) before ->
              api_key user = key ->
              increment_call_and_check_limit today (u_id user) (DAILY_LIMIT L) (db s)
              = (Returned ok, d') ->
              require_api_key L today x_api_key (db s)
              = (if ok then Returned user
                 else Raised (HTTPException 429 "Daily API call limit exceeded"), d')
              /\ (ok = false -> forall handler,
                    Depends L today x_api_key handler s
                    = (Raised (HTTPException 429 "Daily API call limit exceeded"),
                       mkapp d' (fs s)))
              /\ (ok = true -> forall handler,
                    Depends L today x_api_key handler s
                    = handler user (mkapp d' (fs s)))
              /\ (ok = true -> forall req download,
                    allowed (cr_template req) = true ->
                    (fst (increment_project_and_check_limit today (u_id user)
                            (MONTH_LIMIT L) d') = Returned false ->
                     Depends L today x_api_key (create_project L today req download) s
                     = (Raised (HTTPException 429 "Monthly project limit exceeded"),
                        mkapp d' (fs s)))
                    /\ (forall d'',
                          increment_project_and_check_limit today (u_id user)
                            (MONTH_LIMIT L) d' = (Returned true, d'') ->
                          Depends L today x_api_key (create_project L today req download) s
                          = on_fs (generate req download) (mkapp d'' (fs s)))))).
Proof.
  split.
  - intros H.
    assert (E : require_api_key L today x_api_key (db s)
                = (Raised (HTTPException 401 "Missing X-API-Key header"), db s)).
    { destruct x_api_key as [key|]; simpl in *; [|reflexivity].
      unfold require_api_key. rewrite H. reflexivity. }
    split; [exact E|]. intros handler. unfold Depends, on_db, bind.
    rewrite E. destruct s; reflexivity.
  - intros key -> Hk. split.
    + intros Hnone.
      assert (E : require_api_key L today (Some key) (db s)
                  = (Raised (HTTPException 401 "Invalid API key"), db s)).
      { rewrite (require_api_key_outcome key (db s) Hk).
        rewrite (find_none_of _ _ (other_keys key _ Hnone)). reflexivity. }
      split; [exact E|]. intros handler. unfold Depends, on_db, bind.
      rewrite E. destruct s; reflexivity.
    + intros before user after ok d' Hu Hbefore Hkey Hc.
      assert (R0 : require_api_key L today (Some key) (db s)
                  = (if ok then Returned user
                     else Raised (HTTPException 429 "Daily API call limit exceeded"), d')).
      { rewrite (require_api_key_outcome key (db s) Hk), Hu.
        rewrite (find_first_of _ before after user (other_keys key _ Hbefore))
          by (apply String.eqb_eq, Hkey).
        rewrite Hc. destruct ok; reflexivity. }
      split; [exact R0|].
      assert (Dp : forall handler,
                 ok = true ->
                 Depends L today (Some key) handler s = handler user (mkapp d' (fs s))).
      { intros handler ->. unfold Depends, on_db. run_monad. rewrite R0. reflexivity. }
      split; [|split].
      * intros -> handler. unfold Depends, on_db. run_monad. rewrite R0. reflexivity.
      * intros Hok handler. apply Dp, Hok.
      * intros Hok req download Ha. split.
        -- intros Hm. rewrite (Dp _ Hok).
           destruct (increment_project_and_check_limit today (u_id user) (MONTH_LIMIT L) d')
             as [o d''] eqn:E.
           simpl in Hm. subst o.
           assert (d'' = d') as ->.
           { rewrite monthly_check_outcome in E.
             destruct (_ >? _); [congruence|].
             destruct (select_usage _ _ _); discriminate. }
           unfold create_project, on_db. rewrite Ha. run_monad. rewrite E.
           reflexivity.
        -- intros d'' E. rewrite (Dp _ Hok).
           unfold create_project, on_db, bind. rewrite Ha. cbn [negb db fs].
           rewrite E. reflexivity.
Qed.

Lemma filter_none_found {X} (key : X -> bool) (t : list X) :
  List.find key t = None ->
  List.filter key t = [] /\ List.filter (fun x => negb (key x)) t = t.
Proof.
  induction t as [|x t IH]; simpl; [auto|].
  destruct (key x); [discriminate|]. intros H. destruct (IH H) as [E1 E2].
  simpl. rewrite E2. auto.
Qed.

(** The counter of the day after a call that was allowed. *)
Lemma allowed_call_counted (user_id daily_limit : Z) (d d' : database) :
  increment_call_and_check_limit today user_id daily_limit d = (Returned true, d') ->
  exists r',
    select_usage user_id today (usage_logs d') = Some r'
    /\ calls_today r'
       = match select_usage user_id today (usage_logs d) with
         | None => 1
         | Some r => calls_today r + 1
         end.
Proof.
  intros H. destruct (select_usage user_id today (usage_logs d)) as [r|] eqn:S.
  - rewrite (later_call_of_day _ _ _ _ _ S) in H.
    destruct (_ >? _); [discriminate|]. injection H as <-.
    exists (bump_calls r). split; [|reflexivity].
    apply select_usage_update_calls, S.
  - rewrite (first_call_of_day _ _ _ _ S) in H. injection H as <-.
    eexists. split; [apply select_usage_app_new, S | reflexivity].
Qed.

(** C10.  A request whose key names a user and whose daily check returned
    true has been counted before its handler starts: the handler runs on
    the database that already holds the incremented counter.  When the
    handler then fails, with 403 for a template that is not allowed or with
    404 for a preset that is not there, the response is that failure and
    the counter keeps the increment. *)
Theorem gate_charge_is_kept (key : string) (user : user) (s : app) (d' : database) :
  key <> "" ->
  fst (get_user_by_api_key key (db s)) = Returned (Some user) ->
  increment_call_and_check_limit today (u_id user) (DAILY_LIMIT L) (db s)
  = (Returned true, d') ->
  (exists r',
     select_usage (u_id user) today (usage_logs d') = Some r'
     /\ calls_today r'
        = match select_usage (u_id user) today (usage_logs (db s)) with
          | None => 1
          | Some r => calls_today r + 1
          end)
  /\ (forall handler,
        Depends L today (Some key) handler s = handler user (mkapp d' (fs s)))
  /\ (forall p, allowed (pi_template p) = false ->
        Depends L today (Some key) (add_preset p) s
        = (Raised (HTTPException 403 "Template not allowed for free tier"),
           mkapp d' (fs s)))
  /\ (forall preset_id payload, allowed (pi_template payload) = false ->
        Depends L today (Some key) (put_preset preset_id payload) s
        = (Raised (HTTPException 403 "Template not allowed for free tier"),
           mkapp d' (fs s)))
  /\ (forall req download, allowed (cr_template req) = false ->
        Depends L today (Some key) (create_project L today req download) s
        = (Raised (HTTPException 403 "Template not allowed for free tier"),
           mkapp d' (fs s)))
  /\ (forall preset_id,
        fst (get_preset (u_id user) preset_id d') = Returned None ->
        Depends L today (Some key) (remove_preset preset_id) s
        = (Raised (HTTPException 404 "Preset not found"), mkapp d' (fs s))).
Proof.
  intros Hk Hu Hc.
  assert (Dp : forall handler,
             Depends L today (Some key) handler s = handler user (mkapp d' (fs s))).
  { intros handler.
    assert (R : require_api_key L today (Some key) (db s) = (Returned user, d')).
    { rewrite (require_api_key_outcome key (db s) Hk).
      unfold get_user_by_api_key in Hu. run_monad. injection Hu as ->.
      rewrite Hc. reflexivity. }
    unfold Depends, on_db, bind. rewrite R. reflexivity. }
  split; [exact (allowed_call_counted _ _ _ _ Hc)|].
  split; [exact Dp|].
  split; [|split; [|split]].
  - intros p Ha. rewrite Dp. unfold add_preset. rewrite Ha. reflexivity.
  - intros preset_id payload Ha. rewrite Dp. unfold put_preset. rewrite Ha.
    reflexivity.
  - intros req download Ha. rewrite Dp. unfold create_project. rewrite Ha.
    reflexivity.
  - intros preset_id Hg. rewrite Dp.
    unfold get_preset in Hg. run_monad. injection Hg as Hg.
    destruct (filter_none_found _ _ Hg) as [E1 E2].
    unfold remove_preset, delete_preset, on_db. run_monad.
    rewrite E1, E2. simpl. rewrite set_presets_same. reflexivity.
Qed.

End GateFacts.

Lemma request_gate_protocol_witness :
  Main.require_api_key (Main.mklimits 1 0) Examples.today None
    (Examples.store [] [])
  = (Raised (HTTPException 401 "Missing X-API-Key header"), Examples.store [] [])
  /\ Main.require_api_key (Main.mklimits 1 0) Examples.today (Some "key-of-carol")
       (Examples.store [] [])
     = (Raised (HTTPException 401 "Invalid API key"), Examples.store [] [])
  /\ Main.Depends (Main.mklimits 1 0) Examples.today (Some "key-of-bob")
       (Main.create_project (Main.mklimits 1 0) Examples.today
          (Main.mkCreateRequest "demo" "flask" None None None) false)
       (Examples.state (Examples.store [] []))
     = (Raised (HTTPException 429 "Monthly project limit exceeded"),
        Examples.state
          (Examples.store [Services.mkusage 1 2 Examples.today 1 0] [])).
Proof.
  destruct (request_gate_protocol (Main.mklimits 1 0) Examples.today None
              (Examples.state (Examples.store [] []))) as [H0 _].
  destruct (request_gate_protocol (Main.mklimits 1 0) Examples.today
              (Some "key-of-carol") (Examples.state (Examples.store [] [])))
    as [_ Hc].
  destruct (request_gate_protocol (Main.mklimits 1 0) Examples.today
              (Some "key-of-bob") (Examples.state (Examples.store [] [])))
    as [_ H1].
  split; [apply H0; reflexivity|]. split.
  - destruct (Hc "key-of-carol" eq_refl) as [H _]; [discriminate|].
    apply H. repeat constructor; discriminate.
  - destruct (H1 "key-of-bob" eq_refl) as [_ H2]; [discriminate|].
    destruct (H2 [Examples.alice] Examples.bob [] true
                (Examples.store [Services.mkusage 1 2 Examples.today 1 0] [])
                eq_refl) as [_ [_ [_ H3]]].
    + repeat constructor; discriminate.
    + reflexivity.
    + reflexivity.
    + destruct (H3 eq_refl (Main.mkCreateRequest "demo" "flask" None None None)
                  false eq_refl) as [H4 _].
      apply H4. reflexivity.
Defined.

Lemma gate_charge_is_kept_witness :
  Main.Depends (Main.mklimits 10 5) Examples.today (Some "key-of-alice")
    (Main.remove_preset 7)
    (Examples.state (Examples.store [Services.mkusage 1 1 Examples.today 3 0] []))
  = (Raised (HTTPException 404 "Preset not found"),
     Examples.state (Examples.store [Services.mkusage 1 1 Examples.today 4 0] [])).
Proof.
  destruct (gate_charge_is_kept (Main.mklimits 10 5) Examples.today
              "key-of-alice" Examples.alice
              (Examples.state (Examples.store [Services.mkusage 1 1 Examples.today 3 0] []))
              (Examples.store [Services.mkusage 1 1 Examples.today 4 0] []))
    as [_ [_ [_ [_ [_ H]]]]].
  - discriminate.
  - reflexivity.
  - reflexivity.
  - apply H. reflexivity.
Defined.

(** ** The connection pool *)

Section PoolFacts.
Import Db.

(** [MYSQL_DB] is bound nowhere in [db.py] (the database name is assigned
    to [MYSQLDATABASE]), so opening a connection raises [NameError]. *)
Lemma create_connection_unbound (s : settings) (w : world) :
  _create_connection (module_globals s) w = (Raised (NameError "MYSQL_DB"), w).
Proof. reflexivity. Qed.

(** No call of [get_conn] hands out a connection. *)
Lemma init_pool_unbound (s : settings) (w : world) :
  _pool w = None ->
  init_pool (module_globals s) w
  = match Z.to_nat (POOL_MIN s) with
    | O => (Returned tt, set_pool (Some (mkqueue (POOL_MAX s) [])) w)
    | S _ => (Raised (NameError "MYSQL_DB"), w)
    end.
Proof.
  intros H. unfold init_pool, bind, get. cbv beta iota. rewrite H.
  change (global_int (module_globals s) "POOL_MAX" w) with (Returned (POOL_MAX s), w).
  cbv beta iota.
  change (global_int (module_globals s) "POOL_MIN" w) with (Returned (POOL_MIN s), w).
  cbv beta iota.
  destruct (Z.to_nat (POOL_MIN s)); reflexivity.
Qed.

Lemma acquire_always_raises (s : settings) (w : world) :
  _pool w = None ->
  fst (acquire (module_globals s) w) = Raised (NameError "MYSQL_DB").
Proof.
  intros H. unfold acquire, bind, get. cbv beta iota. rewrite H.
  rewrite (init_pool_unbound s w H).
  destruct (Z.to_nat (POOL_MIN s)); reflexivity.
Qed.

(** A broken pooled connection is dropped and nothing takes its place. *)
Lemma release_broken_unbound (s : settings) (w : world) (c : nat) :
  is_open c w = false ->
  release (module_globals s) c true w = (Returned tt, w).
Proof.
  intros H. unfold release. run_monad. rewrite H. reflexivity.
Qed.

Variable G : gmap string pyval.
Hypothesis bound : binds_connection_names G.

Lemma create_connection_bound (w : world) :
  _create_connection G w
  = if server_up w
    then (Returned (next_conn w),
          mkworld (_pool w) (<[next_conn w := true]> (conn_open w))
                  (S (next_conn w)) (server_up w))
    else (Raised OperationalError, w).
Proof.
  destruct bound as [[h Hh] [[p Hp] [[u Hu] [[pw Hpw] [d Hd]]]]].
  unfold _create_connection, global, connect. run_monad.
  rewrite Hh, Hp, Hu, Hpw, Hd. reflexivity.
Qed.

(** With the names bound: a usable pooled connection goes back to the
    pool. *)
Lemma release_usable (w : world) (c : nat) (q : queue) :
  _pool w = Some q -> full q = false -> is_open c w = true ->
  release G c true w
  = (Returned tt, set_pool (Some (mkqueue (maxsize q) (items q ++ [c]))) w).
Proof.
  intros Hq Hf Ho. unfold release, pool_put, queue_put. run_monad.
  rewrite Ho, Hq, Hf. reflexivity.
Qed.

(** With the names bound: a broken pooled connection is replaced by a
    fresh one while the server accepts connections, and is dropped without
    replacement, the error swallowed, while it does not. *)
Lemma release_broken (w : world) (c : nat) (q : queue) :
  _pool w = Some q -> full q = false -> is_open c w = false ->
  release G c true w
  = if server_up w
    then (Returned tt,
          mkworld (Some (mkqueue (maxsize q) (items q ++ [next_conn w])))
                  (<[next_conn w := true]> (conn_open w))
                  (S (next_conn w)) (server_up w))
    else (Returned tt, w).
Proof.
  intros Hq Hf Ho. unfold release. run_monad. rewrite Ho.
  rewrite create_connection_bound.
  destruct (server_up w) eqn:U; [|reflexivity].
  unfold pool_put, queue_put. simpl. rewrite Hq, Hf. reflexivity.
Qed.

(** The fallback connection is closed and the pool is left as it is. *)
Lemma release_fallback (w : world) (c : nat) :
  release G c false w
  = (Returned tt, if is_open c w then set_open c false w else w).
Proof.
  unfold release, close. run_monad. destruct (is_open c w); reflexivity.
Qed.

End PoolFacts.

(** *** The bound of the pool, in any namespace *)

Section PoolBound.
Import Db.

Variable G : gmap string pyval.

Lemma create_connection_pool (w : world) :
  _pool (snd (_create_connection G w)) = _pool w.
Proof.
  unfold _create_connection, bind, global, connect, ret, raise.
  repeat (match goal with |- context [G !! ?x] => destruct (G !! x) end;
          cbv beta iota; try reflexivity).
  destruct (server_up w); reflexivity.
Qed.

Lemma queue_put_bounded (c : nat) (q q' : queue) :
  queue_put c q = Some q' -> queue_bounded q'.
Proof.
  unfold queue_put, full, queue_bounded. intros H.
  destruct ((0 <? maxsize q) && (maxsize q <=? Z.of_nat (length (items q)))) eqn:F;
    [discriminate|].
  injection H as <-. simpl. rewrite length_app. simpl. intros Hpos.
  apply andb_false_iff in F. destruct F as [F | F]; zbool; lia.
Qed.

Lemma pool_put_bounded (c : nat) (w : world) :
  pool_bounded w -> pool_bounded (snd (pool_put c w)).
Proof.
  unfold pool_put, pool_bounded. intros H.
  destruct (_pool w) as [q|] eqn:P; simpl; [|rewrite P; exact I].
  destruct (queue_put c q) as [q'|] eqn:Q; simpl.
  - eapply queue_put_bounded, Q.
  - rewrite P. exact H.
Qed.

(** Releasing a connection keeps the pool within its bound. *)
Lemma release_bounded (c : nat) (borrowed : bool) (w : world) :
  pool_bounded w -> pool_bounded (snd (release G c borrowed w)).
Proof.
  intros H. unfold release, try_pass, bind, get. cbv beta iota.
  destruct borrowed.
  - destruct (is_open c w).
    + pose proof (pool_put_bounded c w H) as B.
      destruct (pool_put c w) as [[|e|] w']; exact B.
    + pose proof (create_connection_pool w) as P.
      destruct (_create_connection G w) as [[fresh|e|] w1]; simpl in P.
      * assert (B1 : pool_bounded w1) by (unfold pool_bounded; rewrite P; exact H).
        pose proof (pool_put_bounded fresh w1 B1) as B.
        destruct (pool_put fresh w1) as [[|e|] w']; exact B.
      * simpl. unfold pool_bounded. rewrite P. exact H.
      * simpl. unfold pool_bounded. rewrite P. exact H.
  - unfold close. destruct (is_open c w); simpl; exact H.
Qed.

Lemma fill_bounded (n : nat) :
  forall (q : queue) (w : world),
    queue_bounded q ->
    _pool (snd (fill G n q w)) = _pool w
    /\ (forall q', fst (fill G n q w) = Returned q' -> queue_bounded q').
Proof.
  induction n as [|n IH]; intros q w B; simpl.
  - split; [reflexivity|]. intros q' H. injection H as <-. exact B.
  - unfold bind. pose proof (create_connection_pool w) as P.
    destruct (_create_connection G w) as [[c|e|] w1]; simpl in P.
    + destruct (queue_put c q) as [q1|] eqn:Q; simpl.
      * destruct (IH q1 w1 (queue_put_bounded c q q1 Q)) as [P1 B1].
        split; [congruence | exact B1].
      * split; [exact P | discriminate].
    + simpl. split; [exact P | discriminate].
    + simpl. split; [exact P | discriminate].
Qed.

Lemma init_pool_bounded (w : world) :
  pool_bounded w -> pool_bounded (snd (init_pool G w)).
Proof.
  intros H. unfold init_pool, bind, get. cbv beta iota.
  destruct (_pool w) as [q|] eqn:P; [simpl; exact H|].
  unfold global_int, bind, global.
  destruct (G !! "POOL_MAX") as [[| |pool_max|]|]; simpl;
    try (unfold pool_bounded; rewrite P; exact I).
  all: destruct (G !! "POOL_MIN") as [[| |pool_min|]|]; simpl;
    try (unfold pool_bounded; rewrite P; exact I).
  all: match goal with
       | |- context [fill G ?n ?q ?w0] =>
           assert (B0 : queue_bounded q) by (unfold queue_bounded; simpl; lia);
           destruct (fill_bounded n q w0 B0) as [P1 B1];
           destruct (fill G n q w0) as [[q'|e|] w1]; simpl in *
       end;
    try (unfold pool_bounded; rewrite P1, P; exact I).
  all: unfold pool_bounded; simpl; apply B1; reflexivity.
Qed.

Lemma pool_get_bounded (w : world) :
  pool_bounded w -> pool_bounded (snd (pool_get w)).
Proof.
  unfold pool_get, pool_bounded. intros H.
  destruct (_pool w) as [q|] eqn:P; simpl; [|rewrite P; exact I].
  destruct (items q) as [|c rest] eqn:E; simpl; [rewrite P; exact H|].
  unfold queue_bounded in *. simpl. rewrite E in H. simpl in H. lia.
Qed.

(** Handing out a connection keeps the pool within its bound. *)
Lemma acquire_bounded (w : world) :
  pool_bounded w -> pool_bounded (snd (acquire G w)).
Proof.
  intros H. unfold acquire, bind, get. cbv beta iota.
  assert (B1 : pool_bounded
                 (snd (match _pool w with
                       | Some _ => ret tt
                       | None => init_pool G
                       end w))).
  { destruct (_pool w) eqn:P; [exact H | apply init_pool_bounded, H]. }
  destruct (match _pool w with Some _ => ret tt | None => init_pool G end w)
    as [[[]|e|] w1]; simpl in *; try exact B1.
  pose proof (pool_get_bounded w1 B1) as B2.
  destruct (pool_get w1) as [[c|e|] w2]; simpl in *; try exact B2.
  pose proof (create_connection_pool w2) as P.
  destruct (_create_connection G w2) as [[c|e'|] w3]; simpl in *;
    unfold pool_bounded in *; rewrite P; exact B2.
Qed.

(** After any sequence of acquisitions and releases a pool created with
    [maxsize > 0] holds at most [maxsize] connections. *)
Lemma pool_stays_bounded (ops : list pool_op) :
  forall w, pool_bounded w -> pool_bounded (fold_left (run_op G) ops w).
Proof.
  induction ops as [|op ops IH]; intros w H; simpl; [exact H|].
  apply IH. destruct op as [|c b]; simpl.
  - apply acquire_bounded, H.
  - apply release_bounded, H.
Qed.

End PoolBound.


(** ** Calls that overlap *)

Section ConcurrentFacts.
Import Services Concurrent.

Variable today : date.
Variables user_id daily_limit : Z.

Lemma count_split (p : call -> bool) (l1 l2 : list call) (c : call) (db : database) :
  count p (mksystem (l1 ++ c :: l2) db)
  = count p (mksystem l1 db) + (if p c then 1 else 0) + count p (mksystem l2 db).
Proof.
  unfold count; simpl. rewrite List.filter_app, length_app. simpl.
  destruct (p c); simpl; lia.
Qed.

(** The two statements of a call, run back to back, are the sequential
    function. *)
Lemma two_steps_are_one_call (db : database) :
  let (c1, db1) := step_call today user_id daily_limit Start db in
  let (c2, db2) := step_call today user_id daily_limit c1 db1 in
  (c2, db2)
  = (Finished (fst (increment_call_and_check_limit today user_id daily_limit db)),
     snd (increment_call_and_check_limit today user_id daily_limit db)).
Proof.
  unfold step_call, increment_call_and_check_limit. run_monad.
  destruct (select_usage user_id today (usage_logs db)) as [r|].
  - destruct (calls_today r + 1 >? daily_limit); reflexivity.
  - destruct (insert_usage user_id today 1 0 db) as [[[]|e|] db']; reflexivity.
Qed.

Lemma step_at (i : nat) (s : system) (l1 l2 : list call) (c : call) :
  calls s = l1 ++ c :: l2 -> length l1 = i ->
  step today user_id daily_limit i s
  = let (c', db') := step_call today user_id daily_limit c (shared s) in
    mksystem (l1 ++ c' :: l2) db'.
Proof.
  intros Hc Hl. unfold step. rewrite Hc. subst i.
  rewrite nth_error_app2 by lia. rewrite Nat.sub_diag. simpl.
  rewrite firstn_app, firstn_all, Nat.sub_diag. simpl. rewrite app_nil_r.
  replace (skipn (S (length l1)) (l1 ++ c :: l2)) with l2; [reflexivity|].
  rewrite skipn_app, skipn_all2 by lia.
  replace (S (length l1) - length l1)%nat with 1%nat by lia. reflexivity.
Qed.

Lemma call_inv_mono (fresh : Prop) (id0 cur cur' : Z) (c : call) :
  cur <= cur' ->
  call_inv fresh id0 daily_limit cur c -> call_inv fresh id0 daily_limit cur' c.
Proof.
  intros H. destruct c as [|[x|]|[[|]|e|]]; simpl; try tauto; intros; lia.
Qed.

Lemma count_none (p : call -> bool) (l : list call) (db : database) :
  Forall (fun c => p c = false) l -> count p (mksystem l db) = 0.
Proof.
  unfold count. simpl. induction 1 as [|c l Hc _ IH]; simpl; [reflexivity|].
  rewrite Hc. exact IH.
Qed.

Lemma not_yet_allowed (l : list call) :
  Forall (fun c => c = Start \/ c = Fetched None) l ->
  Forall (fun c => allowed c = false) l.
Proof.
  apply List.Forall_impl. intros c [-> | ->]; reflexivity.
Qed.

Lemma step_preserves (db0 : database) (n i : nat) (s : system) :
  system_inv today user_id daily_limit db0 n s ->
  system_inv today user_id daily_limit db0 n (step today user_id daily_limit i s).
Proof.
  intros Inv. destruct (nth_error (calls s) i) as [c|] eqn:E.
  2: { unfold step. rewrite E. exact Inv. }
  apply nth_error_split in E. destruct E as (l1 & l2 & Hc & Hl).
  rewrite (step_at i s l1 l2 c Hc Hl).
  destruct Inv as (Hlen & Inv).
  destruct s as [cs db]. simpl in *. subst cs.
  assert (Len : forall c', length (l1 ++ c' :: l2) = length (l1 ++ c :: l2)).
  { intros c'. rewrite !length_app. reflexivity. }
  destruct (select_usage user_id today (usage_logs db)) as [r|] eqn:Hsel.
  - (* the day has its row *)
    destruct Inv as (Hid & Hone & Hcnt & Hall).
    rewrite count_split in Hcnt.
    apply List.Forall_app in Hall. destruct Hall as [H1 H2].
    apply List.Forall_cons_iff in H2. destruct H2 as [Hcall H2'].
    destruct c as [|[x|]|o]; simpl in Hcall.
    + (* the SELECT *)
      simpl. rewrite Hsel. split; [simpl; rewrite Len; exact Hlen|].
      simpl. rewrite Hsel, count_split. simpl in *.
      split; [exact Hid|]. split; [exact Hone|]. split; [exact Hcnt|].
      apply List.Forall_app. split; [exact H1|].
      constructor; [simpl; split; [exact Hid | lia] | exact H2'].
    + (* the check and the UPDATE *)
      destruct Hcall as [Hx Hle]. simpl.
      destruct (calls_today x + 1 >? daily_limit) eqn:G.
      * split; [simpl; rewrite Len; exact Hlen|].
        simpl. rewrite Hsel, count_split. simpl in *.
        split; [exact Hid|]. split; [exact Hone|]. split; [exact Hcnt|].
        apply List.Forall_app. split; [exact H1|].
        constructor; [simpl; zbool; lia | exact H2'].
      * unfold update_calls. run_monad. split; [simpl; rewrite Len; exact Hlen|].
        simpl. rewrite Hx, <- Hid.
        rewrite (select_usage_update_calls today user_id _ r Hsel).
        split; [reflexivity|]. split; [|split].
        -- intros Hf. specialize (Hone Hf). simpl. lia.
        -- rewrite count_split. unfold count in *. simpl in *. lia.
        -- apply List.Forall_app. split.
           ++ eapply List.Forall_impl; [|exact H1].
              intros a. rewrite Hid. apply call_inv_mono. simpl. lia.
           ++ constructor; [exact I|].
              eapply List.Forall_impl; [|exact H2'].
              intros a. rewrite Hid. apply call_inv_mono. simpl. lia.
    + (* an INSERT that comes too late *)
      simpl. unfold insert_usage, bind. rewrite Hsel.
      split; [simpl; rewrite Len; exact Hlen|].
      simpl. rewrite Hsel, count_split. simpl in *.
      split; [exact Hid|]. split; [exact Hone|]. split; [exact Hcnt|].
      apply List.Forall_app. split; [exact H1|].
      constructor; [simpl; split; [reflexivity | exact Hcall] | exact H2'].
    + simpl. split; [exact Hlen|].
      simpl. rewrite Hsel.
      split; [exact Hid|]. split; [exact Hone|]. split.
      * rewrite count_split. exact Hcnt.
      * apply List.Forall_app. split; [exact H1 | constructor; assumption].
  - (* the day has no row yet *)
    destruct Inv as (Hdb & Hall). subst db.
    apply List.Forall_app in Hall. destruct Hall as [H1 H2].
    apply List.Forall_cons_iff in H2. destruct H2 as [Hcall H2'].
    destruct Hcall as [-> | ->].
    + (* the SELECT finds nothing *)
      simpl. rewrite Hsel. split; [simpl; rewrite Len; exact Hlen|].
      simpl. rewrite Hsel. split; [reflexivity|].
      apply List.Forall_app. split; [exact H1|].
      constructor; [right; reflexivity | exact H2'].
    + (* the INSERT *)
      simpl. unfold insert_usage, bind, ret. rewrite Hsel.
      split; [simpl; rewrite Len; exact Hlen|].
      simpl.
      rewrite (select_usage_app_new today user_id _ (usage_logs_next_id db0) 1 0 Hsel).
      unfold row_id, stored_calls. rewrite Hsel. simpl.
      split; [reflexivity|]. split; [intros _; lia|]. split.
      * rewrite count_split. simpl.
        rewrite (count_none allowed l1), (count_none allowed l2);
          [lia | apply not_yet_allowed, H2' | apply not_yet_allowed, H1].
      * apply List.Forall_app. split.
        -- eapply List.Forall_impl; [|exact H1].
           intros a [-> | ->]; simpl; auto.
        -- constructor; [exact I|].
           eapply List.Forall_impl; [|exact H2'].
           intros a [-> | ->]; simpl; auto.
Qed.

Lemma run_preserves (db0 : database) (n : nat) (schedule : list nat) :
  forall s,
    system_inv today user_id daily_limit db0 n s ->
    system_inv today user_id daily_limit db0 n
      (run today user_id daily_limit schedule s).
Proof.
  unfold run. induction schedule as [|i sch IH]; intros s Inv; simpl; [exact Inv|].
  apply IH, step_preserves, Inv.
Qed.

Lemma issue_inv (n : nat) (db : database) :
  system_inv today user_id daily_limit db n (issue n db).
Proof.
  split; [apply repeat_length|]. simpl.
  assert (A : count allowed (mksystem (repeat Start n) db) = 0).
  { apply count_none. clear. induction n; simpl; constructor; auto. }
  unfold row_id, stored_calls.
  destruct (select_usage user_id today (usage_logs db)) as [r|].
  - split; [reflexivity|]. split; [discriminate|].
    split; [unfold issue; rewrite A; lia|].
    clear. induction n; simpl; constructor; simpl; auto.
  - split; [reflexivity|].
    clear. induction n; simpl; constructor; auto.
Qed.

Lemma finished_counts (fresh : Prop) (id0 cur : Z) (l : list call) (db : database) :
  Forall (call_inv fresh id0 daily_limit cur) l ->
  forallb finished l = true ->
  count allowed (mksystem l db) + count rejected (mksystem l db)
  + count refused (mksystem l db)
  = Z.of_nat (length l)
  /\ (0 < count rejected (mksystem l db) -> daily_limit <= cur)
  /\ (0 < count refused (mksystem l db) -> fresh).
Proof.
  unfold count. simpl.
  induction l as [|c l IH]; simpl; intros Hall Hfin; [repeat split; lia|].
  inversion Hall as [|? ? Hc Hl]; subst.
  apply andb_true_iff in Hfin. destruct Hfin as [Hf Hfl].
  destruct (IH Hl Hfl) as (E & Rj & Rf).
  destruct c as [|[x|]|[[|]|e|]]; simpl in *; try discriminate; try contradiction.
  - repeat split; [lia | exact Rj | exact Rf].
  - repeat split; [lia | intros _; exact Hc | exact Rf].
  - destruct Hc as [-> Hfresh]. simpl.
    repeat split; [lia | exact Rj | intros _; exact Hfresh].
Qed.

(** *** Once the counter is at the limit *)

Lemma find_map_keeping {X} (p : X -> bool) (f : X -> X) (t : list X) :
  (forall x, p (f x) = p x) ->
  List.find p (map f t) = option_map f (List.find p t).
Proof.
  intros K. induction t as [|a t IH]; simpl; [reflexivity|].
  rewrite K. destruct (p a); [reflexivity | exact IH].
Qed.

(** No statement of a call takes the row of the day away or lowers its
    counter. *)
Lemma at_limit_step (c : call) (db : database) :
  at_limit today user_id daily_limit db ->
  at_limit today user_id daily_limit
    (snd (step_call today user_id daily_limit c db)).
Proof.
  intros (r & Hsel & Hr). destruct c as [|[x|]|o]; simpl.
  - exists r. auto.
  - destruct (calls_today x + 1 >? daily_limit); simpl; [exists r; auto|].
    unfold at_limit, select_usage. simpl.
    rewrite (find_map_keeping (usage_key user_id today)
               (fun y => if ul_id y =? ul_id x then bump_calls y else y)).
    + fold (select_usage user_id today (usage_logs db)). rewrite Hsel. simpl.
      eexists. split; [reflexivity|].
      destruct (ul_id r =? ul_id x); simpl; lia.
    + intros y. destruct (ul_id y =? ul_id x); reflexivity.
  - unfold insert_usage, bind. rewrite Hsel. simpl. exists r. auto.
  - exists r. auto.
Qed.

(** A call on its way to a rejection stays on it, and leaves the database
    as it is. *)
Lemma late_step (c : call) (db : database) :
  at_limit today user_id daily_limit db ->
  late daily_limit c ->
  late daily_limit (fst (step_call today user_id daily_limit c db))
  /\ snd (step_call today user_id daily_limit c db) = db.
Proof.
  intros (r & Hsel & Hr) Hc.
  destruct c as [|[x|]|[[|]|e|]]; simpl in *; try contradiction.
  - rewrite Hsel. simpl. auto.
  - assert ((calls_today x + 1 >? daily_limit) = true) as -> by (zbool; lia).
    simpl. auto.
  - auto.
Qed.

Lemma nth_error_replaced {X} (l1 l2 : list X) (c c' : X) (j : nat) :
  j <> length l1 ->
  nth_error (l1 ++ c' :: l2) j = nth_error (l1 ++ c :: l2) j.
Proof.
  intros H. destruct (Nat.lt_ge_cases j (length l1)) as [Lt | Ge].
  - rewrite !nth_error_app1 by exact Lt. reflexivity.
  - rewrite !nth_error_app2 by exact Ge.
    destruct (j - length l1)%nat as [|k] eqn:D; [lia | reflexivity].
Qed.

Lemma nth_error_at {X} (l1 l2 : list X) (c : X) :
  nth_error (l1 ++ c :: l2) (length l1) = Some c.
Proof. rewrite nth_error_app2, Nat.sub_diag by lia. reflexivity. Qed.

(** One step of any call, with the counter at the limit: the counter stays
    at the limit and a call on its way to a rejection stays on it. *)
Lemma late_call_step (i j : nat) (s : system) (c : call) :
  at_limit today user_id daily_limit (shared s) ->
  nth_error (calls s) j = Some c -> late daily_limit c ->
  at_limit today user_id daily_limit
    (shared (step today user_id daily_limit i s))
  /\ exists c', nth_error (calls (step today user_id daily_limit i s)) j = Some c'
                /\ late daily_limit c'.
Proof.
  intros A Hj Hc. destruct (nth_error (calls s) i) as [ci|] eqn:E.
  2: { unfold step. rewrite E. split; [exact A | exists c; auto]. }
  apply nth_error_split in E. destruct E as (l1 & l2 & Hcs & Hl).
  rewrite (step_at i s l1 l2 ci Hcs Hl).
  pose proof (at_limit_step ci (shared s) A) as A'.
  destruct (step_call today user_id daily_limit ci (shared s)) as [c1 db1] eqn:S1.
  simpl in *. split; [exact A'|].
  destruct (Nat.eq_dec j i) as [-> | Ne].
  - subst i. rewrite Hcs, nth_error_at in Hj. injection Hj as ->.
    rewrite nth_error_at. exists c1. split; [reflexivity|].
    pose proof (late_step c (shared s) A Hc) as [Lc _].
    rewrite S1 in Lc. exact Lc.
  - exists c. split; [|exact Hc].
    rewrite (nth_error_replaced l1 l2 ci c1 j) by lia.
    rewrite <- Hcs. exact Hj.
Qed.

Lemma late_call_run (schedule : list nat) (j : nat) :
  forall (s : system) (c : call),
    at_limit today user_id daily_limit (shared s) ->
    nth_error (calls s) j = Some c -> late daily_limit c ->
    exists c', nth_error (calls (run today user_id daily_limit schedule s)) j = Some c'
               /\ late daily_limit c'.
Proof.
  unfold run. induction schedule as [|i sch IH]; intros s c A Hj Hc; simpl.
  - exists c. auto.
  - destruct (late_call_step i j s c A Hj Hc) as (A' & c' & Hj' & Hc').
    exact (IH _ c' A' Hj' Hc').
Qed.

(** With the counter at the limit and every call on its way to a
    rejection, no step writes. *)
Lemma all_late_step (i : nat) (s : system) :
  at_limit today user_id daily_limit (shared s) ->
  Forall (late daily_limit) (calls s) ->
  shared (step today user_id daily_limit i s) = shared s
  /\ Forall (late daily_limit) (calls (step today user_id daily_limit i s)).
Proof.
  intros A Hall. destruct (nth_error (calls s) i) as [ci|] eqn:E.
  2: { unfold step. rewrite E. auto. }
  apply nth_error_split in E. destruct E as (l1 & l2 & Hcs & Hl).
  rewrite (step_at i s l1 l2 ci Hcs Hl).
  rewrite Hcs in Hall. apply List.Forall_app in Hall. destruct Hall as [H1 H2].
  apply List.Forall_cons_iff in H2. destruct H2 as [Hci H2'].
  pose proof (late_step ci (shared s) A Hci) as [Lc Ldb].
  destruct (step_call today user_id daily_limit ci (shared s)) as [c1 db1].
  simpl in *. split; [exact Ldb|].
  apply List.Forall_app. split; [exact H1 | constructor; assumption].
Qed.

Lemma all_late_run (schedule : list nat) :
  forall s,
    at_limit today user_id daily_limit (shared s) ->
    Forall (late daily_limit) (calls s) ->
    shared (run today user_id daily_limit schedule s) = shared s
    /\ Forall (late daily_limit) (calls (run today user_id daily_limit schedule s)).
Proof.
  unfold run. induction schedule as [|i sch IH]; intros s A Hall; simpl; [auto|].
  destruct (all_late_step i s A Hall) as [Edb Hall'].
  destruct (IH (step today user_id daily_limit i s)) as [Edb' Hall''].
  - rewrite Edb. exact A.
  - exact Hall'.
  - split; [rewrite Edb'; exact Edb | exact Hall''].
Qed.

Lemma late_finished (c : call) :
  late daily_limit c -> finished c = true -> c = Finished (Returned false).
Proof.
  destruct c as [|[x|]|[[|]|e|]]; simpl; intros H F;
    try discriminate; try contradiction; reflexivity.
Qed.

Lemma all_rejected (l : list call) (db : database) :
  Forall (late daily_limit) l -> forallb finished l = true ->
  count allowed (mksystem l db) = 0
  /\ count rejected (mksystem l db) = Z.of_nat (length l).
Proof.
  unfold count. simpl. induction l as [|c l IH]; simpl; intros Hall Hfin; [auto|].
  inversion Hall as [|? ? Hc Hl]; subst.
  apply andb_true_iff in Hfin. destruct Hfin as [Hf Hfl].
  destruct (IH Hl Hfl) as [Ea Er].
  rewrite (late_finished c Hc Hf). simpl. lia.
Qed.

(** Calls that do not overlap behave as the calls of [daily_calls]. *)
Lemma serial_schedule_is_sequential (n : nat) :
  forall (done : list call) (db : database),
    run today user_id daily_limit (serial (length done) n)
        (mksystem (done ++ repeat Start n) db)
    = mksystem
        (done ++ map Finished (fst (daily_calls today user_id daily_limit n db)))
        (snd (daily_calls today user_id daily_limit n db)).
Proof.
  unfold run, serial.
  induction n as [|n IH]; intros done db; simpl; [reflexivity|].
  rewrite (step_at (length done) (mksystem (done ++ Start :: repeat Start n) db)
             done (repeat Start n) Start eq_refl eq_refl).
  pose proof (two_steps_are_one_call db) as T.
  cbv beta iota zeta delta [shared].
  destruct (step_call today user_id daily_limit Start db) as [c1 db1].
  rewrite (step_at (length done) (mksystem (done ++ c1 :: repeat Start n) db1)
             done (repeat Start n) c1 eq_refl eq_refl).
  cbv beta iota zeta delta [shared].
  destruct (step_call today user_id daily_limit c1 db1) as [c2 db2].
  injection T as -> ->.
  destruct (increment_call_and_check_limit today user_id daily_limit db)
    as [o db'] eqn:E.
  simpl.
  specialize (IH (done ++ [Finished o]) db').
  rewrite length_app in IH. simpl in IH.
  replace (length done + 1)%nat with (S (length done)) in IH by lia.
  rewrite <- app_assoc in IH. simpl in IH. rewrite IH.
  destruct (daily_calls today user_id daily_limit n db') as [os db''].
  simpl. rewrite <- app_assoc. reflexivity.
Qed.

(** C5, as amended.  Let [n] calls of the daily check for one user and day
    be issued together and run with their statements interleaved in any
    order, the stored counter of the day being [c] when they are issued (0
    when the day has no row yet).  When all have finished:

    - each has returned true or false, or its INSERT was refused; an INSERT
      is refused only on a day that began without a row, and then at least
      one call returned true;
    - the stored counter is [c] plus the number of calls that returned
      true;
    - a call returned false only with the stored counter at the limit, and
      at least [min (n - refused) (daily_limit - c)] calls returned true;
    - a call that had not sent its SELECT when the stored counter was at or
      above the limit returned false; so when the counter is at the limit
      as the calls are issued, all [n] return false and nothing is written.

    More than [daily_limit - c] calls can return true, but only calls that
    read the counter before it reached the limit: nothing makes the SELECT
    and the UPDATE of one call atomic. *)
Theorem overlapping_calls_bounds (db : database) (n : nat) (schedule : list nat) :
  let s := run today user_id daily_limit schedule (issue n db) in
  let c := stored_calls today user_id db in
  forallb finished (calls s) = true ->
  count allowed s + count rejected s + count refused s = Z.of_nat n
  /\ (0 < count refused s ->
      select_usage user_id today (usage_logs db) = None /\ 1 <= count allowed s)
  /\ stored_calls today user_id (shared s) = c + count allowed s
  /\ (0 < count rejected s -> daily_limit <= c + count allowed s)
  /\ Z.min (Z.of_nat n - count refused s) (daily_limit - c) <= count allowed s
  /\ (forall before after i r,
        schedule = before ++ after ->
        let m := run today user_id daily_limit before (issue n db) in
        select_usage user_id today (usage_logs (shared m)) = Some r ->
        daily_limit <= calls_today r ->
        nth_error (calls m) i = Some Start ->
        nth_error (calls s) i = Some (Finished (Returned false)))
  /\ (forall r,
        select_usage user_id today (usage_logs db) = Some r ->
        daily_limit <= calls_today r ->
        count allowed s = 0 /\ count rejected s = Z.of_nat n /\ shared s = db).
Proof.
  intros s c Hfin.
  pose proof (run_preserves db n schedule _ (issue_inv n db)) as Inv.
  fold s in Inv. destruct Inv as (Hlen & Inv).
  assert (Late : forall before after i r,
             schedule = before ++ after ->
             let m := run today user_id daily_limit before (issue n db) in
             select_usage user_id today (usage_logs (shared m)) = Some r ->
             daily_limit <= calls_today r ->
             nth_error (calls m) i = Some Start ->
             nth_error (calls s) i = Some (Finished (Returned false))).
  { intros before after i r Hsch m Hr Hlim Hi.
    assert (A : at_limit today user_id daily_limit (shared m)) by (exists r; auto).
    destruct (late_call_run after i m Start A Hi I) as (c' & Hc' & Lc').
    assert (Es : run today user_id daily_limit after m = s).
    { unfold s, m, run. rewrite Hsch, fold_left_app. reflexivity. }
    rewrite Es in Hc'. rewrite Hc'. f_equal.
    apply (late_finished c' Lc').
    rewrite forallb_forall in Hfin. apply Hfin.
    apply nth_error_In with (n := i). exact Hc'. }
  assert (Full : forall r,
             select_usage user_id today (usage_logs db) = Some r ->
             daily_limit <= calls_today r ->
             count allowed s = 0 /\ count rejected s = Z.of_nat n /\ shared s = db).
  { intros r Hr Hlim.
    assert (A : at_limit today user_id daily_limit (shared (issue n db)))
      by (exists r; auto).
    assert (L0 : Forall (late daily_limit) (calls (issue n db))).
    { simpl. clear. induction n; simpl; constructor; simpl; auto. }
    destruct (all_late_run schedule (issue n db) A L0) as [Edb Hall].
    fold s in Edb, Hall.
    destruct (all_rejected (calls s) (shared s) Hall Hfin) as [Ea Er].
    replace (mksystem (calls s) (shared s)) with s in * by (destruct s; reflexivity).
    rewrite Hlen in Er. auto. }
  unfold c, stored_calls at 1.
  destruct (select_usage user_id today (usage_logs (shared s))) as [r|] eqn:Hsel.
  - destruct Inv as (Hid & Hone & Hcnt & Hall).
    destruct (finished_counts _ _ _ _ (shared s) Hall Hfin) as (E & Rj & Rf).
    replace (mksystem (calls s) (shared s)) with s in * by (destruct s; reflexivity).
    rewrite Hlen in E. rewrite Hcnt in Rj.
    assert (0 <= count rejected s) by (unfold count; lia).
    assert (0 <= count refused s) by (unfold count; lia).
    assert (0 <= count allowed s) by (unfold count; lia).
    split; [exact E|]. split; [|split; [exact Hcnt|split; [exact Rj|split; [|auto]]]].
    + intros Hrf. pose proof (Rf Hrf) as Hfresh. split; [exact Hfresh|].
      specialize (Hone Hfresh). unfold stored_calls in Hcnt.
      rewrite Hfresh in Hcnt. lia.
    + destruct (Z.eq_dec (count rejected s) 0) as [Z0 | Z0]; [lia|].
      assert (daily_limit <= stored_calls today user_id db + count allowed s)
        by (apply Rj; lia).
      lia.
  - destruct Inv as (Hdb & Hall).
    assert (Enil : calls s = []).
    { revert Hall Hfin. destruct (calls s) as [|c0 l]; [reflexivity|].
      intros Hall Hfin. exfalso.
      apply List.Forall_cons_iff in Hall.
      destruct Hall as [[-> | ->] _]; discriminate Hfin. }
    assert (Hn : Z.of_nat n = 0) by (rewrite <- Hlen, Enil; reflexivity).
    assert (Z : forall p, count p s = 0)
      by (intros p; unfold count; rewrite Enil; reflexivity).
    rewrite !Z, Hn. unfold stored_calls. rewrite Hdb in Hsel. rewrite Hsel.
    split; [reflexivity|]. split; [intros; lia|]. split; [reflexivity|].
    split; [intros; lia|]. split; [lia|]. split; [exact Late|].
    intros r Hr. rewrite Hr in Hsel. discriminate.
Qed.

End ConcurrentFacts.

Lemma overlapping_calls_bounds_witness :
  Concurrent.count Concurrent.allowed
    (Concurrent.run Examples.today 1 1 [0; 1; 0; 1]%nat
       (Concurrent.issue 2
          (Examples.store [Services.mkusage 1 1 Examples.today 1 0] [])))
  = 0
  /\ Concurrent.shared
       (Concurrent.run Examples.today 1 1 [0; 1; 0; 1]%nat
          (Concurrent.issue 2
             (Examples.store [Services.mkusage 1 1 Examples.today 1 0] [])))
     = Examples.store [Services.mkusage 1 1 Examples.today 1 0] [].
Proof.
  destruct (overlapping_calls_bounds Examples.today 1 1
              (Examples.store [Services.mkusage 1 1 Examples.today 1 0] [])
              2 [0; 1; 0; 1]%nat eq_refl)
    as (_ & _ & _ & _ & _ & _ & H).
  destruct (H (Services.mkusage 1 1 Examples.today 1 0) eq_refl) as (Ha & _ & Hd).
  - simpl. lia.
  - split; [exact Ha | exact Hd].
Defined.

(** C5 fails as stated.  With a limit of 2, three calls are issued on a day
    without a row.  The first runs to its end; the second and the third
    both fetch [calls_today = 1] before either writes, both pass the check
    and both update: all three return true and the counter ends at 3. *)
Lemma three_calls_pass_a_limit_of_two :
  ~ Concurrent.exactly_limit_allowed Examples.today 1 2 1 (Examples.store [] []).
Proof.
  intros H. specialize (H [0; 0; 1; 2; 1; 2]%nat eq_refl).
  destruct H as [H _]. vm_compute in H. discriminate H.
Qed.

(** * Further properties of the code *)

(** ** The usage table *)

Section UsageInvariants.
Import Services.

Lemma date_eqb_eq (a b : date) : date_eqb a b = true -> a = b.
Proof.
  destruct a, b. unfold date_eqb; simpl. intros H.
  apply andb_true_iff in H. destruct H as [H H3].
  apply andb_true_iff in H. destruct H as [H1 H2].
  zbool. congruence.
Qed.

Lemma usage_key_spec (u : Z) (d : date) (r : usage_log) :
  usage_key u d r = true -> ul_user_id r = u /\ log_date r = d.
Proof.
  unfold usage_key. intros H. apply andb_true_iff in H. destruct H as [H1 H2].
  zbool. split; [assumption | apply date_eqb_eq, H2].
Qed.

Lemma usage_key_other (u uid : Z) (d today : date) (r : usage_log) :
  u <> uid \/ d <> today ->
  usage_key uid today r = true -> usage_key u d r = false.
Proof.
  intros Hne H. destruct (usage_key u d r) eqn:E; [|reflexivity].
  apply usage_key_spec in H. apply usage_key_spec in E.
  destruct H, E, Hne; congruence.
Qed.

Lemma same_id_same_row (t : list usage_log) (x y : usage_log) :
  List.NoDup (map ul_id t) -> In x t -> In y t -> ul_id x = ul_id y -> x = y.
Proof.
  induction t as [|a t IH]; simpl; intros D Hx Hy E; [tauto|].
  apply List.NoDup_cons_iff in D. destruct D as [Hnot D].
  destruct Hx as [-> | Hx], Hy as [-> | Hy]; auto.
  - exfalso. apply Hnot. rewrite E. apply in_map, Hy.
  - exfalso. apply Hnot. rewrite <- E. apply in_map, Hx.
Qed.

Lemma find_app_miss {X} (p : X -> bool) (t : list X) (x : X) :
  p x = false -> List.find p (t ++ [x]) = List.find p t.
Proof.
  intros H. induction t as [|a t IH]; simpl; [rewrite H; reflexivity|].
  destruct (p a); [reflexivity | exact IH].
Qed.

Lemma find_map_same_key {X} (p : X -> bool) (f : X -> X) (t : list X) :
  (forall x, p (f x) = p x) ->
  List.find p (map f t) = option_map f (List.find p t).
Proof.
  intros K. induction t as [|a t IH]; simpl; [reflexivity|].
  rewrite K. destruct (p a); [reflexivity | exact IH].
Qed.

Lemma filter_map_same_key {X} (p : X -> bool) (f : X -> X) (t : list X) :
  (forall x, p (f x) = p x) ->
  List.filter p (map f t) = map f (List.filter p t).
Proof.
  intros K. induction t as [|a t IH]; simpl; [reflexivity|].
  rewrite K. destruct (p a); simpl; rewrite IH; reflexivity.
Qed.

(** Appending the row of a key that has none keeps the table well formed. *)
Lemma usage_wf_insert (db : database) (uid : Z) (d : date) (c p : Z) :
  usage_wf db ->
  select_usage uid d (usage_logs db) = None ->
  usage_wf (set_usage_logs
              (usage_logs db ++ [mkusage (usage_logs_next_id db) uid d c p])
              (usage_logs_next_id db + 1) db).
Proof.
  intros (Hid & Hlt & Hkey) Hnone. unfold usage_wf. simpl. repeat split.
  - rewrite map_app. simpl. apply List.NoDup_app; [exact Hid | repeat constructor; simpl; tauto |].
    intros a Ha [<- | []].
    apply in_map_iff in Ha. destruct Ha as (r & E & Hr).
    rewrite List.Forall_forall in Hlt. specialize (Hlt r Hr). lia.
  - apply List.Forall_app. split.
    + eapply List.Forall_impl; [|exact Hlt]. simpl. intros; lia.
    + repeat constructor. simpl. lia.
  - intros u d'. rewrite List.filter_app, length_app. simpl.
    destruct (usage_key u d' (mkusage (usage_logs_next_id db) uid d c p)) eqn:E; simpl.
    + apply usage_key_spec in E. simpl in E. destruct E as [<- <-].
      destruct (filter_none_found _ _ Hnone) as [-> _]. simpl. lia.
    + specialize (Hkey u d'). lia.
Qed.

(** Rewriting the counters of rows keeps the table well formed. *)
Lemma usage_wf_map (db : database) (f : usage_log -> usage_log) :
  (forall x, ul_id (f x) = ul_id x /\ ul_user_id (f x) = ul_user_id x
             /\ log_date (f x) = log_date x) ->
  usage_wf db ->
  usage_wf (set_usage_logs (map f (usage_logs db)) (usage_logs_next_id db) db).
Proof.
  intros K (Hid & Hlt & Hkey). unfold usage_wf. simpl. repeat split.
  - rewrite map_map. rewrite (map_ext _ ul_id); [exact Hid|]. intros x. apply K.
  - apply List.Forall_forall. intros y Hy. apply in_map_iff in Hy.
    destruct Hy as (x & <- & Hx). rewrite List.Forall_forall in Hlt.
    rewrite (proj1 (K x)). apply Hlt, Hx.
  - intros u d. rewrite filter_map_same_key, length_map; [apply Hkey|].
    intros x. unfold usage_key. destruct (K x) as (_ & -> & ->). reflexivity.
Qed.

Lemma bump_if_keeps_keys (id : Z) (g : usage_log -> usage_log) :
  (forall x, ul_id (g x) = ul_id x /\ ul_user_id (g x) = ul_user_id x
             /\ log_date (g x) = log_date x) ->
  forall x, ul_id ((fun r => if ul_id r =? id then g r else r) x) = ul_id x
            /\ ul_user_id ((fun r => if ul_id r =? id then g r else r) x) = ul_user_id x
            /\ log_date ((fun r => if ul_id r =? id then g r else r) x) = log_date x.
Proof. intros K x. simpl. destruct (ul_id x =? id); [apply K | auto]. Qed.

Lemma ensure_usage_row_outcome (uid : Z) (d : date) (db : database) :
  ensure_usage_row uid d db
  = match select_usage uid d (usage_logs db) with
    | Some _ => (Returned tt, db)
    | None =>
        (Returned tt,
         set_usage_logs
           (usage_logs db ++ [mkusage (usage_logs_next_id db) uid d 0 0])
           (usage_logs_next_id db + 1) db)
    end.
Proof.
  unfold ensure_usage_row, insert_usage. run_monad.
  destruct (select_usage uid d (usage_logs db)) eqn:E; [reflexivity|].
  rewrite E. reflexivity.
Qed.

(** X1.  [ensure_usage_row] never raises and is idempotent: when the row of
    (user, date) is missing it appends one with both counters at 0, when
    the row is there it changes nothing, and a second call after the first
    changes nothing. *)
Theorem ensure_usage_row_idempotent (uid : Z) (d : date) (db : database) :
  exists db1,
    ensure_usage_row uid d db = (Returned tt, db1)
    /\ ensure_usage_row uid d db1 = (Returned tt, db1)
    /\ (select_usage uid d (usage_logs db) = None ->
        usage_logs db1
        = usage_logs db ++ [mkusage (usage_logs_next_id db) uid d 0 0])
    /\ (select_usage uid d (usage_logs db) <> None -> db1 = db)
    /\ (exists r, select_usage uid d (usage_logs db1) = Some r
                  /\ (select_usage uid d (usage_logs db) = None ->
                      calls_today r = 0 /\ projects_this_month r = 0)).
Proof.
  rewrite ensure_usage_row_outcome.
  destruct (select_usage uid d (usage_logs db)) as [r|] eqn:E.
  - exists db. rewrite ensure_usage_row_outcome, E.
    repeat split; try congruence. exists r. split; [reflexivity | discriminate].
  - eexists. split; [reflexivity|].
    pose proof (select_usage_app_new d uid (usage_logs db)
                  (usage_logs_next_id db) 0 0 E) as S.
    rewrite ensure_usage_row_outcome. simpl. rewrite S.
    repeat split; try congruence.
    eexists. split; [reflexivity | simpl; auto].
Qed.

(** X2.  The three writers of [usage_logs] keep the table well formed
    (distinct ids below the id counter, at most one row per user and day),
    and none of them raises: the INSERT they send always follows a SELECT
    that found no row for the key. *)
Theorem usage_writers_keep_table_well_formed (today : date) (uid limit : Z)
    (db : database) :
  usage_wf db ->
  (fst (ensure_usage_row uid today db) = Returned tt
   /\ usage_wf (snd (ensure_usage_row uid today db)))
  /\ ((exists b, fst (increment_call_and_check_limit today uid limit db) = Returned b)
      /\ usage_wf (snd (increment_call_and_check_limit today uid limit db)))
  /\ ((exists b, fst (increment_project_and_check_limit today uid limit db) = Returned b)
      /\ usage_wf (snd (increment_project_and_check_limit today uid limit db))).
Proof.
  intros W. split; [|split].
  - rewrite ensure_usage_row_outcome.
    destruct (select_usage uid today (usage_logs db)) eqn:E; simpl;
      split; auto using usage_wf_insert.
  - destruct (select_usage uid today (usage_logs db)) as [r|] eqn:E.
    + rewrite (later_call_of_day _ _ _ _ _ E).
      destruct (_ >? _); simpl; split; eauto.
      apply usage_wf_map; [|exact W].
      apply bump_if_keeps_keys. intros x. repeat split.
    + rewrite (first_call_of_day _ _ _ _ E). simpl. split; eauto.
      apply usage_wf_insert; assumption.
  - rewrite monthly_check_outcome.
    destruct (_ >? _); simpl; [split; eauto|].
    destruct (select_usage uid today (usage_logs db)) as [r|] eqn:E; simpl;
      split; eauto.
    + apply usage_wf_map; [|exact W].
      apply bump_if_keeps_keys. intros x. repeat split.
    + apply usage_wf_insert; assumption.
Qed.

Lemma find_app_hit {X} (p : X -> bool) (t l : list X) (x : X) :
  List.find p t = Some x -> List.find p (t ++ l) = Some x.
Proof.
  induction t as [|a t IH]; simpl; [discriminate|].
  destruct (p a); [auto | exact IH].
Qed.

(** With distinct ids, the UPDATE by the id of a row rewrites that row only. *)
Lemma update_by_id_elsewhere (t : list usage_log) (r x : usage_log)
    (g : usage_log -> usage_log) :
  List.NoDup (map ul_id t) -> In r t -> In x t -> x <> r ->
  (if ul_id x =? ul_id r then g x else x) = x.
Proof.
  intros D Hr Hx Hne. destruct (ul_id x =? ul_id r) eqn:E; [|reflexivity].
  zbool. exfalso. apply Hne. eapply same_id_same_row; eassumption.
Qed.

Lemma select_other_after_update (db : database) (uid u : Z) (today d : date)
    (r : usage_log) (g : usage_log -> usage_log) :
  (forall x, ul_id (g x) = ul_id x /\ ul_user_id (g x) = ul_user_id x
             /\ log_date (g x) = log_date x) ->
  usage_wf db ->
  select_usage uid today (usage_logs db) = Some r ->
  u <> uid \/ d <> today ->
  select_usage u d
    (map (fun x => if ul_id x =? ul_id r then g x else x) (usage_logs db))
  = select_usage u d (usage_logs db).
Proof.
  intros K (Hid & _ & _) Hr Hne. unfold select_usage in *.
  rewrite find_map_same_key.
  - destruct (List.find (usage_key u d) (usage_logs db)) as [x|] eqn:E;
      [|reflexivity].
    simpl. f_equal.
    apply find_some in E. destruct E as [Hx Kx].
    apply find_some in Hr. destruct Hr as [Hr Kr].
    apply (update_by_id_elsewhere (usage_logs db) r x g Hid Hr Hx).
    intros ->. rewrite (usage_key_other u uid d today r Hne Kr) in Kx. discriminate.
  - intros x. unfold usage_key.
    destruct (bump_if_keeps_keys (ul_id r) g K x) as (_ & -> & ->). reflexivity.
Qed.

Lemma spec_month_sum_bump_calls (t' : date) (u id : Z) (t : list usage_log) :
  spec_month_sum t' u (map (fun x => if ul_id x =? id then bump_calls x else x) t)
  = spec_month_sum t' u t.
Proof.
  induction t as [|a t IH]; simpl; [reflexivity|].
  rewrite IH. destruct (ul_id a =? id); reflexivity.
Qed.

Lemma map_update_absent (id : Z) (g : usage_log -> usage_log) (t : list usage_log) :
  ~ In id (map ul_id t) ->
  map (fun x => if ul_id x =? id then g x else x) t = t.
Proof.
  induction t as [|a t IH]; simpl; intros H; [reflexivity|].
  rewrite IH by tauto.
  destruct (ul_id a =? id) eqn:E; [|reflexivity].
  zbool. tauto.
Qed.

Lemma spec_month_sum_bump_projects (t' : date) (u : Z) (t : list usage_log)
    (r : usage_log) :
  List.NoDup (map ul_id t) -> In r t ->
  spec_month_sum t' u
    (map (fun x => if ul_id x =? ul_id r then bump_projects x else x) t)
  = spec_month_sum t' u t
    + (if in_month u (first_of_month t') r then 1 else 0).
Proof.
  induction t as [|a t IH]; simpl; intros D Hr; [tauto|].
  apply List.NoDup_cons_iff in D. destruct D as [Hnot D].
  destruct Hr as [-> | Hr].
  - rewrite Z.eqb_refl, (map_update_absent _ _ _ Hnot). simpl.
    unfold in_month. destruct (_ && _); lia.
  - assert (ul_id a <> ul_id r) as Hne.
    { intros E. apply Hnot. rewrite E. apply in_map, Hr. }
    apply Z.eqb_neq in Hne. rewrite Hne, (IH D Hr). lia.
Qed.

(** What an allowed daily check leaves alone. *)
Lemma daily_allowed_frame (today : date) (uid limit : Z) (db db' : database) :
  usage_wf db ->
  increment_call_and_check_limit today uid limit db = (Returned true, db') ->
  (forall u d, u <> uid \/ d <> today ->
               select_usage u d (usage_logs db') = select_usage u d (usage_logs db))
  /\ (forall t' u, month_total t' u db' = month_total t' u db)
  /\ users db' = users db /\ presets db' = presets db.
Proof.
  intros W H.
  destruct (select_usage uid today (usage_logs db)) as [r|] eqn:E.
  - rewrite (later_call_of_day _ _ _ _ _ E) in H.
    destruct (_ >? _); [discriminate|]. injection H as <-. simpl.
    repeat split.
    + intros u d Hne.
      apply (select_other_after_update db uid u today d r bump_calls); auto;
        intros x; repeat split.
    + intros t' u. rewrite !month_total_spec. simpl.
      apply spec_month_sum_bump_calls.
  - rewrite (first_call_of_day _ _ _ _ E) in H. injection H as <-. simpl.
    repeat split.
    + intros u d Hne. unfold select_usage. apply find_app_miss.
      apply (usage_key_other u uid d today); [exact Hne | apply usage_key_new].
    + intros t' u. rewrite !month_total_spec. simpl.
      rewrite spec_month_sum_app. simpl.
      destruct (_ && _); lia.
Qed.

(** What an allowed monthly check adds to the totals. *)
Lemma monthly_allowed_total (today : date) (uid limit : Z) (db db' : database) :
  usage_wf db ->
  increment_project_and_check_limit today uid limit db = (Returned true, db') ->
  forall t' u,
    month_total t' u db'
    = month_total t' u db
      + (if (uid =? u) && date_leb (first_of_month t') today then 1 else 0).
Proof.
  intros W H t' u. rewrite monthly_check_outcome in H.
  destruct (_ >? _); [discriminate|].
  rewrite !month_total_spec.
  destruct (select_usage uid today (usage_logs db)) as [r|] eqn:E;
    injection H as <-; simpl.
  - destruct W as (Hid & _ & _).
    apply find_some in E. destruct E as [Hr Kr].
    rewrite (spec_month_sum_bump_projects t' u _ r Hid Hr).
    apply usage_key_spec in Kr. destruct Kr as [Ku Kd].
    unfold in_month. rewrite Ku, Kd. reflexivity.
  - rewrite spec_month_sum_app. simpl. lia.
Qed.

(** X3.  An allowed daily check rewrites one counter only.  In a
    well-formed table every other (user, day) keeps its row as it was, so
    the check of another user, or of another day, gets the answer it would
    have got before; the monthly total of every user is unchanged; users
    and presets are untouched. *)
Theorem daily_check_touches_one_counter (today : date) (uid limit : Z)
    (db db' : database) :
  usage_wf db ->
  increment_call_and_check_limit today uid limit db = (Returned true, db') ->
  (forall u d, u <> uid \/ d <> today ->
               select_usage u d (usage_logs db') = select_usage u d (usage_logs db))
  /\ (forall u d lim, u <> uid \/ d <> today ->
        fst (increment_call_and_check_limit d u lim db')
        = fst (increment_call_and_check_limit d u lim db))
  /\ (forall t' u, month_total t' u db' = month_total t' u db)
  /\ users db' = users db /\ presets db' = presets db.
Proof.
  intros W H.
  destruct (daily_allowed_frame today uid limit db db' W H) as (F & M & U & P).
  repeat split; auto.
  intros u d lim Hne. specialize (F u d Hne).
  destruct (select_usage u d (usage_logs db)) as [x|] eqn:E.
  - rewrite (later_call_of_day _ _ _ _ _ F), (later_call_of_day _ _ _ _ _ E).
    destruct (_ >? _); reflexivity.
  - rewrite (first_call_of_day _ _ _ _ F), (first_call_of_day _ _ _ _ E).
    reflexivity.
Qed.

(** X4.  An allowed monthly check counts one project.  In a well-formed
    table the total of the user grows by exactly one for every month that
    starts on or before today (by nothing for a later month), the totals of
    the other users are unchanged, the daily counter of every row that was
    there is unchanged, and users and presets are untouched. *)
Theorem monthly_check_counts_one_project (today : date) (uid limit : Z)
    (db db' : database) :
  usage_wf db ->
  increment_project_and_check_limit today uid limit db = (Returned true, db') ->
  (1 <= day today -> month_total today uid db' = month_total today uid db + 1)
  /\ (forall t', month_total t' uid db'
                 = month_total t' uid db
                   + (if date_leb (first_of_month t') today then 1 else 0))
  /\ (forall t' u, u <> uid -> month_total t' u db' = month_total t' u db)
  /\ (forall u d r, select_usage u d (usage_logs db) = Some r ->
        exists r', select_usage u d (usage_logs db') = Some r'
                   /\ calls_today r' = calls_today r)
  /\ users db' = users db /\ presets db' = presets db.
Proof.
  intros W H.
  pose proof (monthly_allowed_total today uid limit db db' W H) as T.
  split; [|split; [|split; [|split]]].
  - intros Hd. rewrite T, Z.eqb_refl. simpl.
    assert (date_leb (first_of_month today) today = true) as ->.
    { apply same_month_from_first. unfold same_month. auto. }
    reflexivity.
  - intros t'. rewrite T, Z.eqb_refl. reflexivity.
  - intros t' u Hne. rewrite T.
    assert ((uid =? u) = false) as -> by (apply Z.eqb_neq; congruence).
    simpl. lia.
  - intros u d r Hr. rewrite monthly_check_outcome in H.
    destruct (_ >? _); [discriminate|].
    destruct (select_usage uid today (usage_logs db)) as [row|] eqn:E;
      injection H as <-; simpl.
    + unfold select_usage in *. rewrite find_map_same_key.
      * rewrite Hr. simpl. eexists. split; [reflexivity|].
        destruct (ul_id r =? ul_id row); reflexivity.
      * intros x. unfold usage_key.
        destruct (ul_id x =? ul_id row); reflexivity.
    + exists r. split; [|reflexivity].
      unfold select_usage in *. apply find_app_hit, Hr.
  - rewrite monthly_check_outcome in H.
    destruct (_ >? _); [discriminate|].
    destruct (select_usage uid today (usage_logs db)); injection H as <-;
      split; reflexivity.
Qed.

Lemma usage_wf_after_monthly (today : date) (uid limit : Z) (db : database) :
  usage_wf db ->
  usage_wf (snd (increment_project_and_check_limit today uid limit db)).
Proof.
  intros W. rewrite monthly_check_outcome.
  destruct (_ >? _); simpl; [exact W|].
  destruct (select_usage uid today (usage_logs db)) as [r|] eqn:E; simpl.
  - apply usage_wf_map; [|exact W].
    apply bump_if_keeps_keys. intros x. repeat split.
  - apply usage_wf_insert; assumption.
Qed.

Lemma month_total_same_month (d m : date) (u : Z) (db : database) :
  same_month d m -> month_total d u db = month_total m u db.
Proof.
  intros (Hy & Hm & _). unfold month_total, first_of_month. rewrite Hy, Hm.
  reflexivity.
Qed.

(** Monthly checks on days of one month, from a total of
    [month_total m uid db]: call number [k] is allowed exactly when the
    total plus [k] is within the limit. *)
Lemma monthly_calls_from (m : date) (uid limit : Z) (days : list date) :
  forall (db : database) (first : nat),
    usage_wf db ->
    Forall (fun d => same_month d m) days ->
    fst (monthly_calls days uid limit db)
    = map (fun k => Returned (month_total m uid db + Z.of_nat k - Z.of_nat first + 1
                              <=? limit))
          (seq first (length days)).
Proof.
  induction days as [|d days IH]; intros db first W Hd; [reflexivity|].
  apply List.Forall_cons_iff in Hd. destruct Hd as [Hd Hds].
  simpl.
  pose proof (usage_wf_after_monthly d uid limit db W) as W'.
  pose proof (monthly_allowed_total d uid limit db) as T.
  pose proof (monthly_check_outcome d uid limit db) as O.
  rewrite (month_total_same_month d m uid db Hd) in O.
  destruct (increment_project_and_check_limit d uid limit db) as [o db'].
  simpl in W'.
  specialize (IH db' (S first) W' Hds).
  destruct (monthly_calls days uid limit db') as [os db''].
  simpl in *. rewrite IH.
  destruct (month_total m uid db + 1 >? limit) eqn:G.
  - injection O as -> ->. f_equal.
    + f_equal. zbool; lia.
    + apply map_ext_in. intros k Hk. apply in_seq in Hk. f_equal.
      zbool; try reflexivity; lia.
  - assert (o = Returned true) as ->.
    { destruct (select_usage uid d (usage_logs db)); congruence. }
    specialize (T db' W eq_refl m uid).
    rewrite Z.eqb_refl, (same_month_from_first m d Hd) in T. simpl in T.
    rewrite T. f_equal.
    + f_equal. zbool; try reflexivity; lia.
    + apply map_ext_in. intros k Hk. apply in_seq in Hk. f_equal. f_equal. lia.
Qed.

(** X5.  Monthly checks issued one after the other on days of one calendar
    month, whichever days: in a well-formed table that starts the month at
    a total of [t], call number [k] returns true exactly when
    [t + k <= month_limit]; so from an empty month exactly the first
    [month_limit] project creations are allowed. *)
Theorem monthly_calls_sequential (m : date) (uid limit : Z) (days : list date)
    (db : database) :
  usage_wf db ->
  Forall (fun d => same_month d m) days ->
  fst (monthly_calls days uid limit db)
  = map (fun k => Returned (month_total m uid db + Z.of_nat k <=? limit))
        (seq 1 (length days)).
Proof.
  intros W Hd. rewrite (monthly_calls_from m uid limit days db 1 W Hd).
  apply map_ext_in. intros k Hk. f_equal. f_equal. lia.
Qed.

(** X6.  Called one after the other, the checks never push a counter past
    its limit.  After a daily check the counter of the day is at most the
    largest of the limit, 1 (the first call of a day) and what it was
    before; after a monthly check on a well-formed table the total of the
    month is at most the larger of the limit and what it was before. *)
Theorem counters_stay_within_limits (today : date) (uid limit : Z) (db : database) :
  (forall r',
     select_usage uid today
       (usage_logs (snd (increment_call_and_check_limit today uid limit db)))
     = Some r' ->
     calls_today r'
     <= Z.max (Z.max limit 1)
          (match select_usage uid today (usage_logs db) with
           | Some r => calls_today r
           | None => 0
           end))
  /\ (usage_wf db -> 1 <= day today ->
      month_total today uid
        (snd (increment_project_and_check_limit today uid limit db))
      <= Z.max limit (month_total today uid db)).
Proof.
  split.
  - intros r' H.
    destruct (select_usage uid today (usage_logs db)) as [r|] eqn:E.
    + rewrite (later_call_of_day _ _ _ _ _ E) in H.
      destruct (calls_today r + 1 >? limit) eqn:G; simpl in H.
      * rewrite E in H. injection H as <-. lia.
      * rewrite (select_usage_update_calls _ _ _ _ E) in H. injection H as <-.
        simpl. zbool. lia.
    + rewrite (first_call_of_day _ _ _ _ E) in H. simpl in H.
      rewrite (select_usage_app_new _ _ _ _ _ _ E) in H. injection H as <-.
      simpl. lia.
  - intros W Hd.
    pose proof (monthly_allowed_total today uid limit db) as T.
    pose proof (monthly_check_outcome today uid limit db) as O.
    destruct (increment_project_and_check_limit today uid limit db) as [o db'].
    simpl. destruct (month_total today uid db + 1 >? limit) eqn:G.
    + injection O as -> ->. lia.
    + assert (o = Returned true) as ->.
      { destruct (select_usage uid today (usage_logs db)); congruence. }
      rewrite (T db' W eq_refl today uid), Z.eqb_refl. simpl.
      destruct (date_leb _ _); zbool; lia.
Qed.

End UsageInvariants.

Lemma usage_wf_empty : Services.usage_wf (Examples.store [] []).
Proof.
  unfold Services.usage_wf. simpl. repeat split; try constructor. simpl. lia.
Qed.

Lemma usage_wf_one_row :
  Services.usage_wf
    (Examples.store [Services.mkusage 1 1 Examples.today 2 1] []).
Proof.
  apply (usage_wf_insert (Examples.store [] []) 1 Examples.today 2 1
           usage_wf_empty eq_refl).
Qed.

Lemma usage_writers_keep_table_well_formed_witness :
  Services.usage_wf
    (snd (Services.increment_project_and_check_limit Examples.today 1 5
            (Examples.store [Services.mkusage 1 1 Examples.today 2 1] []))).
Proof.
  apply (usage_writers_keep_table_well_formed Examples.today 1 5
           (Examples.store [Services.mkusage 1 1 Examples.today 2 1] [])
           usage_wf_one_row).
Defined.

Lemma daily_check_touches_one_counter_witness :
  fst (Services.increment_call_and_check_limit Examples.today 2 0
         (snd (Services.increment_call_and_check_limit Examples.today 1 5
                 (Examples.store [Services.mkusage 1 1 Examples.today 2 1] []))))
  = fst (Services.increment_call_and_check_limit Examples.today 2 0
           (Examples.store [Services.mkusage 1 1 Examples.today 2 1] [])).
Proof.
  apply (daily_check_touches_one_counter Examples.today 1 5
           (Examples.store [Services.mkusage 1 1 Examples.today 2 1] [])
           _ usage_wf_one_row eq_refl).
  left. lia.
Defined.

Lemma monthly_check_counts_one_project_witness :
  Services.month_total Examples.today 1
    (snd (Services.increment_project_and_check_limit Examples.today 1 5
            (Examples.store [Services.mkusage 1 1 Examples.today 2 1] [])))
  = Services.month_total Examples.today 1
      (Examples.store [Services.mkusage 1 1 Examples.today 2 1] []) + 1.
Proof.
  apply (proj1 (monthly_check_counts_one_project Examples.today 1 5
                  (Examples.store [Services.mkusage 1 1 Examples.today 2 1] [])
                  _ usage_wf_one_row eq_refl)).
  simpl. lia.
Defined.

Lemma monthly_calls_sequential_witness :
  fst (Services.monthly_calls
         [mkdate 2024 5 3; mkdate 2024 5 3; mkdate 2024 5 20; mkdate 2024 5 31]
         1 3 (Examples.store [] []))
  = [Returned true; Returned true; Returned true; Returned false].
Proof.
  apply (monthly_calls_sequential Examples.today 1 3
           [mkdate 2024 5 3; mkdate 2024 5 3; mkdate 2024 5 20; mkdate 2024 5 31]
           (Examples.store [] []) usage_wf_empty).
  repeat constructor; simpl; lia.
Defined.

Lemma counters_stay_within_limits_witness :
  Services.month_total Examples.today 1
    (snd (Services.increment_project_and_check_limit Examples.today 1 5
            (Examples.store [Services.mkusage 1 1 Examples.today 2 1] [])))
  <= Z.max 5 (Services.month_total Examples.today 1
                (Examples.store [Services.mkusage 1 1 Examples.today 2 1] [])).
Proof.
  apply (counters_stay_within_limits Examples.today 1 5
           (Examples.store [Services.mkusage 1 1 Examples.today 2 1] []));
    [exact usage_wf_one_row | simpl; lia].
Defined.

(** ** Registration and the gate *)

Section GateSequences.
Import Services Utils Main.

Variable L : limits.
Variable today : date.

Lemma daily_calls_fresh (uid limit : Z) (n : nat) (d : database) :
  select_usage uid today (usage_logs d) = None ->
  fst (daily_calls today uid limit n d)
  = map (fun k => Returned (Z.of_nat k <=? Z.max limit 1)) (seq 1 n).
Proof.
  intros H. destruct n as [|m]; [reflexivity|].
  simpl. rewrite (first_call_of_day today uid limit d H).
  match goal with
  | |- context [daily_calls _ _ _ m ?d1] =>
      pose proof (daily_calls_from_row today uid limit m d1
                    (mkusage (usage_logs_next_id d) uid today 1 0) 2
                    (select_usage_app_new _ _ _ _ _ _ H)) as R;
      destruct (daily_calls today uid limit m d1) as [os d2]
  end.
  simpl in *. rewrite R. f_equal.
  - f_equal. zbool; [reflexivity | lia].
  - apply map_ext_in. intros k Hk. apply in_seq in Hk. f_equal.
    zbool; try reflexivity; lia.
Qed.

Lemma users_after_daily_check (uid limit : Z) (d : database) :
  users (snd (increment_call_and_check_limit today uid limit d)) = users d.
Proof.
  destruct (select_usage uid today (usage_logs d)) as [r|] eqn:E.
  - rewrite (later_call_of_day _ _ _ _ _ E). destruct (_ >? _); reflexivity.
  - rewrite (first_call_of_day _ _ _ _ E). reflexivity.
Qed.

(** The gate answers a known key with what the daily check decides. *)
Lemma gate_calls_as_daily_calls (key : string) (user : user) (n : nat) :
  key <> "" ->
  forall d,
    List.find (fun u => String.eqb (api_key u) key) (users d) = Some user ->
    gate_calls L today (Some key) n d
    = (map (fun o => match o with
                     | Returned true => Returned user
                     | Returned false =>
                         Raised (HTTPException 429 "Daily API call limit exceeded")
                     | Raised e => Raised e
                     | Blocked => Blocked
                     end)
           (fst (daily_calls today (u_id user) (DAILY_LIMIT L) n d)),
       snd (daily_calls today (u_id user) (DAILY_LIMIT L) n d)).
Proof.
  intros Hk. induction n as [|n IH]; intros d Hu; [reflexivity|].
  cbn [gate_calls daily_calls].
  rewrite (require_api_key_outcome L today key d Hk), Hu.
  pose proof (users_after_daily_check (u_id user) (DAILY_LIMIT L) d) as U.
  destruct (increment_call_and_check_limit today (u_id user) (DAILY_LIMIT L) d)
    as [o d1].
  simpl in U. rewrite <- U in Hu. specialize (IH d1 Hu).
  destruct o as [[|]|e|]; rewrite IH;
    destruct (daily_calls today (u_id user) (DAILY_LIMIT L) n d1); reflexivity.
Qed.

(** X7.  Requests that carry the key of a user, one after the other on a
    day that starts without a row for that user: the gate passes the user
    on for the first [max DAILY_LIMIT 1] requests and answers 429 to every
    later one. *)
Theorem gate_calls_sequential (key : string) (user : user) (n : nat)
    (d : database) :
  key <> "" ->
  fst (get_user_by_api_key key d) = Returned (Some user) ->
  select_usage (u_id user) today (usage_logs d) = None ->
  fst (gate_calls L today (Some key) n d)
  = map (fun k => if Z.of_nat k <=? Z.max (DAILY_LIMIT L) 1
                  then Returned user
                  else Raised (HTTPException 429 "Daily API call limit exceeded"))
        (seq 1 n).
Proof.
  intros Hk Hu Hs.
  unfold get_user_by_api_key in Hu. run_monad. injection Hu as Hu.
  rewrite (gate_calls_as_daily_calls key user n Hk d Hu). simpl.
  rewrite (daily_calls_fresh _ _ n d Hs), map_map.
  apply map_ext. intros k. destruct (_ <=? _); reflexivity.
Qed.

Lemma find_by_key_app (key k : string) (t : list user) (u : user) :
  api_key u = key -> k <> key ->
  List.find (fun x => String.eqb (api_key x) k) (t ++ [u])
  = List.find (fun x => String.eqb (api_key x) k) t.
Proof.
  intros E Hne. apply find_app_miss. rewrite E.
  apply String.eqb_neq. congruence.
Qed.

(** X8.  Registration round trip.  [create_user] with a key no user has
    returns the row it stored, with the next id and the given fields, and
    touches nothing but [users]; the key then looks up that row, every
    other key looks up what it did before, and the first request of a day
    with the new key passes the gate whatever the daily limit is. *)
Theorem create_user_round_trip (username email key tier : string) (d : database) :
  List.find (by_api_key key) (users d) = None ->
  exists d',
    create_user username email key tier d
    = (Returned (Some (mkuser (users_next_id d) username email key tier)), d')
    /\ users d' = users d ++ [mkuser (users_next_id d) username email key tier]
    /\ usage_logs d' = usage_logs d /\ presets d' = presets d
    /\ get_user_by_api_key key d'
       = (Returned (Some (mkuser (users_next_id d) username email key tier)), d')
    /\ (forall k, k <> key ->
          fst (get_user_by_api_key k d') = fst (get_user_by_api_key k d))
    /\ (key <> "" ->
        select_usage (users_next_id d) today (usage_logs d) = None ->
        fst (require_api_key L today (Some key) d')
        = Returned (mkuser (users_next_id d) username email key tier)).
Proof.
  intros H.
  assert (F : List.find (fun u => String.eqb (api_key u) key)
                (users d ++ [mkuser (users_next_id d) username email key tier])
              = Some (mkuser (users_next_id d) username email key tier)).
  { clear -H. unfold by_api_key in H.
    induction (users d) as [|a t IH]; simpl in *.
    - rewrite String.eqb_refl. reflexivity.
    - destruct (String.eqb (api_key a) key); [discriminate | auto]. }
  eexists. split.
  { unfold create_user, get_user_by_api_key. run_monad. rewrite H. simpl.
    rewrite F. reflexivity. }
  simpl. repeat split.
  - unfold get_user_by_api_key. run_monad. rewrite F. reflexivity.
  - intros k Hne. unfold get_user_by_api_key. run_monad. f_equal.
    apply (find_by_key_app key k); [reflexivity | exact Hne].
  - intros Hk Hs. rewrite (require_api_key_outcome L today key _ Hk).
    simpl. rewrite F. simpl.
    rewrite first_call_of_day by exact Hs. reflexivity.
Qed.

End GateSequences.

Lemma gate_calls_sequential_witness :
  fst (Main.gate_calls (Main.mklimits 2 5) Examples.today (Some "key-of-alice") 3
         (Examples.store [] []))
  = [ Returned Examples.alice; Returned Examples.alice;
      Raised (HTTPException 429 "Daily API call limit exceeded") ].
Proof.
  apply (gate_calls_sequential (Main.mklimits 2 5) Examples.today
           "key-of-alice" Examples.alice 3 (Examples.store [] []));
    [discriminate | reflexivity | reflexivity].
Defined.

Lemma create_user_round_trip_witness :
  exists d',
    Services.create_user "carol" "carol@x.com" "key-of-carol" "free"
      (Examples.store [] [])
    = (Returned (Some (Services.mkuser 3 "carol" "carol@x.com" "key-of-carol" "free")),
       d').
Proof.
  destruct (create_user_round_trip (Main.mklimits 0 0) Examples.today
              "carol" "carol@x.com" "key-of-carol" "free"
              (Examples.store [] []) eq_refl) as [d' [E _]].
  exists d'. exact E.
Defined.

(** ** Presets: create, delete, replace *)

Section PresetRoundTrips.
Import Services Utils Main.

Context {OS : Os.Runtime}.

Lemma find_app_none {X} (p : X -> bool) (t : list X) (x : X) :
  List.find p t = None ->
  List.find p (t ++ [x]) = if p x then Some x else None.
Proof.
  induction t as [|a t IH]; simpl; [reflexivity|].
  destruct (p a); [discriminate | exact IH].
Qed.

Lemma find_none_forall {X} (p : X -> bool) (t : list X) :
  Forall (fun x => p x = false) t -> List.find p t = None.
Proof.
  induction 1 as [|a t Ha _ IH]; simpl; [reflexivity|]. rewrite Ha. exact IH.
Qed.

Lemma find_after_filter_out {X} (p : X -> bool) (t : list X) :
  List.find p (List.filter (fun x => negb (p x)) t) = None.
Proof.
  apply find_none_forall, List.Forall_forall. intros x Hx.
  apply filter_In in Hx. destruct Hx as [_ Hx].
  destruct (p x); [discriminate | reflexivity].
Qed.

Lemma find_some_filter {X} (p : X -> bool) (t : list X) (x : X) :
  List.find p t = Some x -> List.filter p t <> [].
Proof.
  intros H E. apply find_some in H. destruct H as [Hin Hp].
  assert (In x (List.filter p t)) as Hf by (apply filter_In; auto).
  rewrite E in Hf. exact Hf.
Qed.

Lemma fresh_id_not_found (d : database) :
  presets_wf d ->
  Forall (fun r => sql_eqb (p_id r) (VInt (presets_next_id d)) = false) (presets d).
Proof.
  intros W. eapply List.Forall_impl; [|exact W].
  intros r (i & -> & Hi). simpl. apply Z.eqb_neq. lia.
Qed.

(** X9.  Preset creation round trip.  With the ids of the table below the
    id counter, [create_preset] stores one row, owned by the caller, with
    the counter's value as id, the given fields and the two flags as 0 or
    1, and returns that row; [get_preset] by that id then returns it,
    [list_presets] of the owner ends with it, the presets of every other
    user are the same, and the table is still well formed.  A flag that is
    [None] makes the call raise [TypeError] with nothing stored. *)
Theorem create_preset_round_trip (uid : Z) (name template : string)
    (g v : bool) (lic : option string) (d : database) :
  presets_wf d ->
  exists d',
    create_preset uid name template (Some g) (Some v) lic d
    = (Returned
         (Some (mkpreset (VInt (presets_next_id d)) (VInt uid) (VStr name)
                  (VStr template) (VInt (if g then 1 else 0))
                  (VInt (if v then 1 else 0)) (opt_str lic))),
       d')
    /\ presets d'
       = presets d
         ++ [mkpreset (VInt (presets_next_id d)) (VInt uid) (VStr name)
               (VStr template) (VInt (if g then 1 else 0))
               (VInt (if v then 1 else 0)) (opt_str lic)]
    /\ get_preset uid (presets_next_id d) d'
       = (Returned
            (Some (mkpreset (VInt (presets_next_id d)) (VInt uid) (VStr name)
                     (VStr template) (VInt (if g then 1 else 0))
                     (VInt (if v then 1 else 0)) (opt_str lic))),
          d')
    /\ fst (list_presets uid d')
       = Returned
           (presets_of uid d
            ++ [mkpreset (VInt (presets_next_id d)) (VInt uid) (VStr name)
                  (VStr template) (VInt (if g then 1 else 0))
                  (VInt (if v then 1 else 0)) (opt_str lic)])
    /\ (forall u, u <> uid -> presets_of u d' = presets_of u d)
    /\ presets_wf d'
    /\ users d' = users d /\ usage_logs d' = usage_logs d
    /\ create_preset uid name template None (Some v) lic d = (Raised TypeError, d)
    /\ create_preset uid name template (Some g) None lic d = (Raised TypeError, d).
Proof.
  intros W.
  pose proof (fresh_id_not_found d W) as Fr.
  set (new := mkpreset (VInt (presets_next_id d)) (VInt uid) (VStr name)
                (VStr template) (VInt (if g then 1 else 0))
                (VInt (if v then 1 else 0)) (opt_str lic)).
  assert (Fid : List.find (fun r => sql_eqb (p_id r) (VInt (presets_next_id d)))
                  (presets d ++ [new]) = Some new).
  { rewrite find_app_none by (apply find_none_forall, Fr).
    simpl. rewrite Z.eqb_refl. reflexivity. }
  assert (Fkey : List.find (preset_key (VInt (presets_next_id d)) (VInt uid))
                   (presets d ++ [new]) = Some new).
  { rewrite find_app_none.
    - unfold preset_key. simpl. rewrite !Z.eqb_refl. reflexivity.
    - apply find_none_forall. eapply List.Forall_impl; [|exact Fr].
      intros r Hr. unfold preset_key. rewrite Hr. reflexivity. }
  subst new. eexists. split.
  { unfold create_preset, py_int. run_monad. rewrite Fid. reflexivity. }
  simpl. split; [reflexivity|]. split.
  { unfold get_preset. run_monad. rewrite Fkey. reflexivity. }
  split.
  { unfold list_presets, presets_of. run_monad.
    rewrite List.filter_app. simpl. unfold owned_by at 2. simpl.
    rewrite Z.eqb_refl. reflexivity. }
  split.
  { intros u Hne. unfold presets_of. simpl. rewrite List.filter_app. simpl.
    unfold owned_by at 2. simpl.
    assert ((uid =? u) = false) as -> by (apply Z.eqb_neq; congruence).
    apply app_nil_r. }
  split.
  { unfold presets_wf. simpl. apply List.Forall_app. split.
    - eapply List.Forall_impl; [|exact W].
      intros r (i & E & Hi). exists i. split; [exact E | lia].
    - repeat constructor. exists (presets_next_id d). split; [reflexivity | lia]. }
  repeat split.
Qed.

Lemma filter_filter_same {X} (p : X -> bool) (t : list X) :
  List.filter p (List.filter p t) = List.filter p t.
Proof.
  induction t as [|a t IH]; simpl; [reflexivity|].
  destruct (p a) eqn:E; simpl; rewrite ?E, IH; reflexivity.
Qed.

Lemma filter_out_then_in {X} (p : X -> bool) (t : list X) :
  List.filter p (List.filter (fun x => negb (p x)) t) = [].
Proof.
  induction t as [|a t IH]; simpl; [reflexivity|].
  destruct (p a) eqn:E; simpl; rewrite ?E; exact IH.
Qed.

(** X10.  Deletion round trip.  [delete_preset] returns true exactly when
    [get_preset] of the same id and owner finds a row; afterwards
    [get_preset] finds none and a second deletion returns false and
    changes nothing; when it returns false the database is the one it
    started from; the rows it removes are those of that id and owner and no
    other. *)
Theorem delete_preset_round_trip (uid pid : Z) (d : database) :
  fst (delete_preset uid pid d)
  = Returned (match fst (get_preset uid pid d) with
              | Returned (Some _) => true
              | _ => false
              end)
  /\ get_preset uid pid (snd (delete_preset uid pid d))
     = (Returned None, snd (delete_preset uid pid d))
  /\ delete_preset uid pid (snd (delete_preset uid pid d))
     = (Returned false, snd (delete_preset uid pid d))
  /\ (fst (delete_preset uid pid d) = Returned false ->
      snd (delete_preset uid pid d) = d)
  /\ (forall x, In x (presets (snd (delete_preset uid pid d)))
                <-> In x (presets d)
                    /\ preset_key (VInt pid) (VInt uid) x = false).
Proof.
  unfold delete_preset, get_preset. run_monad.
  set (key := preset_key (VInt pid) (VInt uid)).
  split; [|split; [|split; [|split]]].
  - f_equal. destruct (List.find key (presets d)) as [x|] eqn:E.
    + apply find_some_filter in E.
      destruct (List.filter key (presets d)); [congruence|].
      cbn [length]. zbool; [reflexivity | lia].
    + destruct (filter_none_found key _ E) as [-> _]. reflexivity.
  - rewrite (find_after_filter_out key). reflexivity.
  - rewrite (filter_out_then_in key). simpl.
    rewrite (filter_filter_same (fun r => negb (key r))). reflexivity.
  - intros H. injection H as H.
    destruct (List.filter key (presets d)) as [|a l] eqn:E.
    + assert (List.find key (presets d) = None) as N.
      { apply find_none_forall, List.Forall_forall. intros x Hx.
        destruct (key x) eqn:K; [|reflexivity].
        assert (In x (List.filter key (presets d))) as Hf
            by (apply filter_In; auto).
        rewrite E in Hf. destruct Hf. }
      destruct (filter_none_found key _ N) as [_ ->]. apply set_presets_same.
    + cbn [length] in H. zbool. lia.
  - intros x. rewrite filter_In. destruct (key x); simpl; intuition congruence.
Qed.

(** What the PUT handler does once the template is allowed. *)
Lemma put_preset_run (pid : Z) (payload : PresetIn) (user : user) (s : app) :
  allowed (pi_template payload) = true ->
  put_preset pid payload user s
  = let key := preset_key (VInt pid) (VInt (u_id user)) in
    let g := fun r =>
               mkpreset (p_id r) (p_user_id r) (VStr (pi_name payload))
                 (VStr (pi_template payload))
                 (to_sql (opt_bool (pi_git_init payload)))
                 (to_sql (opt_bool (pi_use_venv payload)))
                 (to_sql (opt_string (pi_license_type payload))) in
    let d' := set_presets
                (map (fun r => if key r then g r else r) (presets (db s)))
                (presets_next_id (db s)) (db s) in
    match List.find key (presets (db s)) with
    | Some r => (Returned (PresetRow (Some (g r))), mkapp d' (fs s))
    | None => (Raised (HTTPException 404 "Preset not found"), mkapp d' (fs s))
    end.
Proof.
  intros Ha. unfold put_preset, on_db, bind. rewrite Ha. cbn [negb].
  rewrite (update_preset_outcome (u_id user) pid (PresetIn_dict payload) (db s))
    by discriminate.
  cbv zeta. cbn [presets set_presets].
  rewrite (find_map_fixing_key (preset_key (VInt pid) (VInt (u_id user)))
             (assign_all (map (fun cv => (fst cv, to_sql (snd cv)))
                              (PresetIn_dict payload)))).
  - destruct (List.find _ (presets (db s))); reflexivity.
  - intros x Hx. rewrite preset_key_assign_all; [exact Hx|].
    repeat constructor.
Qed.

(** X11.  The PUT handler.  A template outside the allow-set is answered
    403 with nothing changed.  With an allowed template and no preset of
    that id owned by the caller, the answer is 404 with nothing changed.
    Otherwise the answer is the row as it is stored after the update, that
    is, the row a lookup by the same id and owner now finds: its id and
    owner as before, its five other fields those of the payload.  In the
    table every row that matches is stored in that form, every other row
    is stored as it was, and no row is added or removed; the other tables
    and the file system are untouched. *)
Theorem put_preset_outcomes (pid : Z) (payload : PresetIn) (user : user) (s : app) :
  let key := preset_key (VInt pid) (VInt (u_id user)) in
  let g := fun r =>
             mkpreset (p_id r) (p_user_id r) (VStr (pi_name payload))
               (VStr (pi_template payload))
               (to_sql (opt_bool (pi_git_init payload)))
               (to_sql (opt_bool (pi_use_venv payload)))
               (to_sql (opt_string (pi_license_type payload))) in
  (allowed (pi_template payload) = false ->
   put_preset pid payload user s
   = (Raised (HTTPException 403 "Template not allowed for free tier"), s))
  /\ (allowed (pi_template payload) = true ->
      match List.find key (presets (db s)) with
      | None =>
          put_preset pid payload user s
          = (Raised (HTTPException 404 "Preset not found"), s)
      | Some r =>
          exists s',
            put_preset pid payload user s = (Returned (PresetRow (Some (g r))), s')
            /\ fst (get_preset (u_id user) pid (db s')) = Returned (Some (g r))
            /\ fs s' = fs s /\ users (db s') = users (db s)
            /\ usage_logs (db s') = usage_logs (db s)
            /\ length (presets (db s')) = length (presets (db s))
            /\ (forall i x,
                  nth_error (presets (db s)) i = Some x ->
                  nth_error (presets (db s')) i
                  = Some (if key x then g x else x))
      end).
Proof.
  intros key g. split.
  - intros Ha. unfold put_preset. rewrite Ha. reflexivity.
  - intros Ha. rewrite (put_preset_run pid payload user s Ha). cbv zeta.
    fold key. fold g.
    assert (K : forall x, key x = true -> key (g x) = true).
    { intros x Hx. exact Hx. }
    destruct (List.find key (presets (db s))) as [r|] eqn:E.
    + eexists. split; [reflexivity|]. cbn [db fs set_presets presets users usage_logs].
      split; [|split; [|split; [|split; [|split]]]]; try reflexivity.
      * unfold get_preset, bind, get, ret. cbn [fst presets set_presets]. fold key.
        rewrite (find_map_fixing_key key g (presets (db s)) K), E. reflexivity.
      * apply length_map.
      * intros i x Hx. rewrite nth_error_map, Hx. reflexivity.
    + rewrite (map_fixing_none _ _ _ E), set_presets_same.
      destruct s; reflexivity.
Qed.

Lemma map_fixing_twice {X} (key : X -> bool) (g : X -> X) (t : list X) :
  (forall x, key x = true -> key (g x) = true /\ g (g x) = g x) ->
  map (fun x => if key x then g x else x)
      (map (fun x => if key x then g x else x) t)
  = map (fun x => if key x then g x else x) t.
Proof.
  intros K. rewrite map_map. apply map_ext. intros x.
  destruct (key x) eqn:E; [|rewrite E; reflexivity].
  destruct (K x E) as [-> ->]. reflexivity.
Qed.

(** X12.  The PUT handler is idempotent: the same request repeated right
    after itself gets the same answer and leaves the database as the first
    one left it. *)
Theorem put_preset_idempotent (pid : Z) (payload : PresetIn) (user : user) (s : app) :
  put_preset pid payload user (snd (put_preset pid payload user s))
  = (fst (put_preset pid payload user s), snd (put_preset pid payload user s)).
Proof.
  destruct (allowed (pi_template payload)) eqn:Ha.
  2: { unfold put_preset. rewrite Ha. reflexivity. }
  rewrite (put_preset_run pid payload user _ Ha).
  rewrite (put_preset_run pid payload user s Ha). cbv zeta.
  set (key := preset_key (VInt pid) (VInt (u_id user))).
  set (g := fun r => mkpreset (p_id r) (p_user_id r) _ _ _ _ _).
  assert (K : forall x, key x = true -> key (g x) = true /\ g (g x) = g x).
  { intros x Hx. split; [exact Hx | reflexivity]. }
  destruct (List.find key (presets (db s))) as [r|] eqn:E; simpl.
  - rewrite (find_map_fixing_key key g _ (fun x Hx => proj1 (K x Hx))), E. simpl.
    rewrite (map_fixing_twice key g _ K). reflexivity.
  - rewrite (find_map_fixing_key key g _ (fun x Hx => proj1 (K x Hx))), E. simpl.
    rewrite (map_fixing_twice key g _ K). reflexivity.
Qed.

(** X13.  No handler stores a template outside the allow-set: if every
    stored preset names an allowed template, that is still so after
    [add_preset], [put_preset] and [remove_preset], whatever their
    arguments and whatever they answer. *)
Theorem handlers_keep_templates_allowed (user : user) (s : app) :
  templates_allowed (db s) ->
  (forall p, templates_allowed (db (snd (add_preset p user s))))
  /\ (forall pid payload, templates_allowed (db (snd (put_preset pid payload user s))))
  /\ (forall pid, templates_allowed (db (snd (remove_preset pid user s)))).
Proof.
  intros T. unfold templates_allowed in *. split; [|split].
  - intros p. unfold add_preset.
    destruct (allowed (pi_template p)) eqn:Ha; simpl; [|exact T].
    unfold create_preset, py_int, on_db. run_monad.
    destruct (pi_git_init p) as [g|]; simpl; [|exact T].
    destruct (pi_use_venv p) as [v|]; simpl; [|exact T].
    apply List.Forall_app. split; [exact T|].
    repeat constructor. simpl. eauto.
  - intros pid payload.
    destruct (allowed (pi_template payload)) eqn:Ha.
    + rewrite (put_preset_run pid payload user s Ha). cbv zeta.
      assert (Forall (fun r => exists t, p_template r = VStr t /\ allowed t = true)
                (map (fun r => if preset_key (VInt pid) (VInt (u_id user)) r
                               then mkpreset (p_id r) (p_user_id r)
                                      (VStr (pi_name payload))
                                      (VStr (pi_template payload))
                                      (to_sql (opt_bool (pi_git_init payload)))
                                      (to_sql (opt_bool (pi_use_venv payload)))
                                      (to_sql (opt_string (pi_license_type payload)))
                               else r)
                     (presets (db s)))) as R.
      { apply List.Forall_forall. intros y Hy. apply in_map_iff in Hy.
        destruct Hy as (x & <- & Hx).
        destruct (preset_key _ _ x); [simpl; eauto|].
        rewrite List.Forall_forall in T. apply T, Hx. }
      destruct (List.find _ (presets (db s))); simpl; exact R.
    + unfold put_preset. rewrite Ha. simpl. exact T.
  - intros pid. unfold remove_preset, delete_preset, on_db. run_monad.
    assert (Forall (fun r => exists t, p_template r = VStr t /\ allowed t = true)
              (List.filter
                 (fun r => negb (preset_key (VInt pid) (VInt (u_id user)) r))
                 (presets (db s)))) as R.
    { apply List.Forall_forall. intros x Hx. apply filter_In in Hx.
      rewrite List.Forall_forall in T. apply T, Hx. }
    destruct (_ >? 0); simpl; exact R.
Qed.

End PresetRoundTrips.

Lemma presets_wf_sample : Services.presets_wf (Examples.store [] [Examples.p1; Examples.p2]).
Proof.
  unfold Services.presets_wf. simpl.
  repeat constructor; eexists; (split; [reflexivity | lia]).
Qed.

Lemma create_preset_round_trip_witness :
  exists d',
    Services.create_preset 1 "p4" "flask" (Some true) (Some false) None
      (Examples.store [] [Examples.p1; Examples.p2])
    = (Returned
         (Some (Services.mkpreset (Services.VInt 3) (Services.VInt 1)
                  (Services.VStr "p4") (Services.VStr "flask")
                  (Services.VInt 1) (Services.VInt 0) Services.VNull)),
       d').
Proof.
  destruct (create_preset_round_trip 1 "p4" "flask" true false None
              (Examples.store [] [Examples.p1; Examples.p2]) presets_wf_sample)
    as [d' [E _]].
  exists d'. exact E.
Defined.

Lemma handlers_keep_templates_allowed_witness :
  Main.templates_allowed
    (Main.db (snd (Main.put_preset 1
                     (Main.mkPresetIn "renamed" "fastapi" (Some true) None None)
                     Examples.alice
                     (Examples.state (Examples.store [] [Examples.p1; Examples.p2]))))).
Proof.
  apply (handlers_keep_templates_allowed Examples.alice
           (Examples.state (Examples.store [] [Examples.p1; Examples.p2]))).
  unfold Main.templates_allowed. simpl.
  repeat constructor; eexists; (split; [reflexivity | reflexivity]).
Defined.

(** ** The pool, continued *)

Section PoolScopes.
Import Db.

(** X14.  As [db.py] stands, no [with get_conn()] block is ever entered.
    Whatever the settings, from a process whose pool is not yet created or
    holds no connection, [get_conn] raises [NameError] for [MYSQL_DB]
    before it yields: the body does not run, and the pool still holds no
    connection afterwards, so the next call fails the same way. *)
Theorem get_conn_never_yields (s : settings) (A : Type) (body : nat -> M world A)
    (w : world) :
  pool_size w = O ->
  get_conn (module_globals s) body w
  = (Raised (NameError "MYSQL_DB"), snd (acquire (module_globals s) w))
  /\ pool_size (snd (acquire (module_globals s) w)) = O
  /\ conn_open (snd (acquire (module_globals s) w)) = conn_open w.
Proof.
  intros H. unfold pool_size in H.
  assert (Acq : fst (acquire (module_globals s) w) = Raised (NameError "MYSQL_DB")
                /\ pool_size (snd (acquire (module_globals s) w)) = O
                /\ conn_open (snd (acquire (module_globals s) w)) = conn_open w).
  { unfold acquire, bind, get. cbv beta iota.
    destruct (_pool w) as [q|] eqn:P.
    - unfold ret, pool_get. rewrite P.
      destruct (items q) eqn:I; [|discriminate].
      rewrite create_connection_unbound. unfold pool_size.
      cbn [fst snd]. rewrite P, I. auto.
    - rewrite (init_pool_unbound s w P).
      destruct (Z.to_nat (POOL_MIN s)).
      + unfold pool_get. cbn. auto.
      + unfold pool_size. cbn [fst snd]. rewrite P. auto. }
  destruct Acq as (Af & Ap & Ao). repeat split; try assumption.
  unfold get_conn, bind.
  destruct (acquire (module_globals s) w) as [o w1]. simpl in *. subst o.
  reflexivity.
Qed.

Variable G : gmap string pyval.

(** X15.  Scoped acquisition.  A connection taken from the pool goes back
    to it when the block ends, whether the body returned or raised: if the
    body leaves the pool alone and the connection open, then after
    [get_conn] the pool holds the connections it held before, the one that
    was handed out now last, and the outcome of the block is the outcome of
    the body. *)
Theorem get_conn_returns_connection (A : Type) (body : nat -> M world A)
    (w w2 : world) (q : queue) (c : nat) (rest : list nat) (o : outcome A) :
  _pool w = Some q ->
  items q = c :: rest ->
  queue_bounded q ->
  body c (set_pool (Some (mkqueue (maxsize q) rest)) w) = (o, w2) ->
  o <> Blocked ->
  _pool w2 = Some (mkqueue (maxsize q) rest) ->
  is_open c w2 = true ->
  get_conn G body w
  = (o, set_pool (Some (mkqueue (maxsize q) (rest ++ [c]))) w2).
Proof.
  intros P I B Hb Ho P2 O2.
  assert (Acq : acquire G w
                = (Returned (c, true), set_pool (Some (mkqueue (maxsize q) rest)) w)).
  { unfold acquire, bind, get. cbv beta iota. rewrite P.
    unfold ret, pool_get. rewrite P, I. reflexivity. }
  assert (Rel : release G c true w2
                = (Returned tt, set_pool (Some (mkqueue (maxsize q) (rest ++ [c]))) w2)).
  { unfold release, try_pass, bind, get. cbv beta iota. rewrite O2.
    unfold pool_put, queue_put. rewrite P2.
    assert (full (mkqueue (maxsize q) rest) = false) as ->.
    { unfold full, queue_bounded in *. simpl. rewrite I in B. simpl in B.
      destruct (0 <? maxsize q) eqn:Z0; [|reflexivity].
      simpl. zbool; lia. }
    reflexivity. }
  unfold get_conn, bind. rewrite Acq. cbn [fst snd].
  unfold try_finally. rewrite Hb, Rel.
  destruct o; [reflexivity | reflexivity | congruence].
Qed.

(** X16.  The bound of the pool.  In any module namespace, a pool whose
    queue is within its [maxsize] stays within it through every sequence
    of acquisitions and releases, for any connections and flags the
    releases are given; a pool that does not exist yet is created within
    the bound. *)
Theorem pool_never_exceeds_maxsize (ops : list pool_op) (w : world) :
  pool_bounded w ->
  pool_bounded (fold_left (run_op G) ops w)
  /\ (forall q, _pool (fold_left (run_op G) ops w) = Some q ->
                0 < maxsize q ->
                Z.of_nat (pool_size (fold_left (run_op G) ops w)) <= maxsize q).
Proof.
  intros H. pose proof (pool_stays_bounded G ops w H) as B.
  split; [exact B|].
  intros q Hq Hpos. unfold pool_bounded, pool_size in *. rewrite Hq in *.
  apply B, Hpos.
Qed.

End PoolScopes.

Lemma get_conn_never_yields_witness :
  fst (Db.get_conn
         (Db.module_globals
            (Db.mksettings "mysql.railway.internal" 3306 "root" "secret"
               "bootstrapper" 1 5))
         (fun conn => Py.ret conn)
         (Db.mkworld None ∅ 0 true))
  = Raised (NameError "MYSQL_DB").
Proof.
  rewrite (proj1 (get_conn_never_yields
                    (Db.mksettings "mysql.railway.internal" 3306 "root" "secret"
                       "bootstrapper" 1 5)
                    nat (fun conn => Py.ret conn)
                    (Db.mkworld None ∅ 0 true) eq_refl)).
  reflexivity.
Defined.

Lemma get_conn_returns_connection_witness :
  Db.get_conn
    (Db.module_globals
       (Db.mksettings "mysql.railway.internal" 3306 "root" "secret"
          "bootstrapper" 2 5))
    (fun _ => Py.raise (A := unit) OperationalError)
    (Db.mkworld (Some (Db.mkqueue 5 [0; 1]%nat))
       {[ 0%nat := true; 1%nat := true ]} 2 true)
  = (Raised OperationalError,
     Db.mkworld (Some (Db.mkqueue 5 [1; 0]%nat))
       {[ 0%nat := true; 1%nat := true ]} 2 true).
Proof.
  rewrite (get_conn_returns_connection
             (Db.module_globals
                (Db.mksettings "mysql.railway.internal" 3306 "root" "secret"
                   "bootstrapper" 2 5))
             unit (fun _ => Py.raise (A := unit) OperationalError)
             (Db.mkworld (Some (Db.mkqueue 5 [0; 1]%nat))
                {[ 0%nat := true; 1%nat := true ]} 2 true)
             (Db.mkworld (Some (Db.mkqueue 5 [1]%nat))
                {[ 0%nat := true; 1%nat := true ]} 2 true)
             (Db.mkqueue 5 [0; 1]%nat) 0%nat [1%nat] (Raised OperationalError)).
  - reflexivity.
  - reflexivity.
  - reflexivity.
  - unfold Db.queue_bounded. simpl. lia.
  - reflexivity.
  - discriminate.
  - reflexivity.
  - reflexivity.
Defined.

Lemma pool_never_exceeds_maxsize_witness :
  Db.pool_bounded
    (fold_left
       (Db.run_op
          (Db.module_globals
             (Db.mksettings "mysql.railway.internal" 3306 "root" "secret"
                "bootstrapper" 1 2)))
       [Db.Release 7 true; Db.Release 8 true; Db.Acquire; Db.Release 9 false]
       (Db.mkworld (Some (Db.mkqueue 2 [0%nat]))
          {[ 0%nat := true; 7%nat := true; 8%nat := true; 9%nat := true ]} 10 true)).
Proof.
  apply (pool_never_exceeds_maxsize
           (Db.module_globals
              (Db.mksettings "mysql.railway.internal" 3306 "root" "secret"
                 "bootstrapper" 1 2))).
  unfold Db.pool_bounded, Db.queue_bounded. simpl. lia.
Defined.

(** ** Project creation and calls without overlap *)

Section CreationFacts.
Import Services Utils Main.

Context {OS : Os.Runtime}.

Variable L : limits.
Variable today : date.

(** X18.  [create_project] either rejects and changes nothing, or counts
    exactly one project.  A template outside the allow-set is answered 403
    and a month at its limit 429, in both cases with the database and the
    file system as they were.  Otherwise, on a well-formed usage table, the
    project is counted before anything is generated: the answer and the
    file system are those of the generation (from [mkdtemp] to [rmtree]) run
    on the file system as it was, and whatever the generation does, return
    or raise, the database afterwards holds the month's total of the user
    one higher and within the limit, with users and presets untouched. *)
Theorem create_project_counts_once (req : CreateRequest) (download : bool)
    (user : user) (s : app) :
  usage_wf (db s) ->
  1 <= day today ->
  (allowed (cr_template req) = false
   /\ create_project L today req download user s
      = (Raised (HTTPException 403 "Template not allowed for free tier"), s))
  \/ (allowed (cr_template req) = true
      /\ month_total today (u_id user) (db s) + 1 > MONTH_LIMIT L
      /\ create_project L today req download user s
         = (Raised (HTTPException 429 "Monthly project limit exceeded"), s))
  \/ (allowed (cr_template req) = true
      /\ month_total today (u_id user) (db s) + 1 <= MONTH_LIMIT L
      /\ exists d',
           create_project L today req download user s
           = (fst (generate req download (fs s)),
              mkapp d' (snd (generate req download (fs s))))
           /\ month_total today (u_id user) d'
              = month_total today (u_id user) (db s) + 1
           /\ users d' = users (db s) /\ presets d' = presets (db s)
           /\ usage_wf d').
Proof.
  intros W Hd.
  destruct (allowed (cr_template req)) eqn:Ha.
  2: { left. split; [reflexivity|]. unfold create_project. rewrite Ha. reflexivity. }
  right.
  pose proof (monthly_check_outcome today (u_id user) (MONTH_LIMIT L) (db s)) as O.
  destruct (month_total today (u_id user) (db s) + 1 >? MONTH_LIMIT L) eqn:G.
  - left. split; [reflexivity|]. split; [zbool; lia|].
    unfold create_project. rewrite Ha. cbn [negb]. unfold bind, on_db.
    rewrite O. destruct s; reflexivity.
  - right. split; [reflexivity|]. split; [zbool; lia|].
    destruct (increment_project_and_check_limit today (u_id user) (MONTH_LIMIT L) (db s))
      as [o d'] eqn:E.
    assert (o = Returned true) as ->.
    { destruct (select_usage (u_id user) today (usage_logs (db s))); congruence. }
    pose proof (monthly_allowed_total today (u_id user) (MONTH_LIMIT L) (db s) d' W E
                  today (u_id user)) as T.
    rewrite Z.eqb_refl in T. simpl in T.
    assert (date_leb (first_of_month today) today = true) as Hle.
    { apply same_month_from_first. unfold same_month. auto. }
    rewrite Hle in T.
    exists d'. split; [|split; [exact T|split; [|split]]].
    + unfold create_project, on_db, on_fs, bind. rewrite Ha. cbn [negb].
      rewrite E. cbn [negb db fs].
      destruct (generate req download (fs s)); reflexivity.
    + destruct (select_usage (u_id user) today (usage_logs (db s)));
        injection O as ->; reflexivity.
    + destruct (select_usage (u_id user) today (usage_logs (db s)));
        injection O as ->; reflexivity.
    + pose proof (usage_wf_after_monthly today (u_id user) (MONTH_LIMIT L) (db s) W)
        as W'.
      rewrite E in W'. exact W'.
Qed.

End CreationFacts.

Section TemplateFacts.
Import Services Utils Main.

Context {OS : Os.Runtime}.

Lemma allowed_iff (t : string) :
  allowed t = true <-> In t ALLOWED_FREE_TEMPLATES.
Proof.
  unfold allowed. rewrite existsb_exists. split.
  - intros (x & Hx & E). apply String.eqb_eq in E. subst x. exact Hx.
  - intros H. exists t. split; [exact H | apply String.eqb_refl].
Qed.

(** X19.  [list_templates] answers with exactly the templates the guards of
    [add_preset], [put_preset] and [create_project] let through: in
    whatever order the set is listed, a name is in the answer if and only
    if it passes the membership test, each of the three names is listed
    once, and nothing is changed. *)
Theorem list_templates_lists_allowed (user : user) (s : app) :
  exists listed,
    list_templates user s = (Returned (Templates listed), s)
    /\ (forall t, In t listed <-> allowed t = true)
    /\ List.NoDup listed
    /\ length listed = 3%nat.
Proof.
  exists (Os.list_of_set ALLOWED_FREE_TEMPLATES).
  pose proof (Os.list_of_set_perm ALLOWED_FREE_TEMPLATES) as P.
  split; [reflexivity|]. split; [|split].
  - intros t. rewrite allowed_iff. split.
    + apply Permutation_in, P.
    + apply Permutation_in, Permutation_sym, P.
  - apply (Permutation_NoDup (Permutation_sym P)).
    repeat constructor; simpl; intros H;
      repeat (destruct H as [H | H]; [discriminate H|]); exact H.
  - rewrite (Permutation_length P). reflexivity.
Qed.

End TemplateFacts.

Section SerialFacts.
Import Services Concurrent.

(** X17.  Calls of the daily check that do not overlap, each sending its
    SELECT and then its write before the next call starts, return what the
    same number of calls of [increment_call_and_check_limit] return one
    after the other, and leave the same database. *)
Theorem serial_calls_are_sequential (today : date) (uid limit : Z) (n : nat)
    (d : database) :
  run today uid limit (serial 0 n) (issue n d)
  = mksystem (map Finished (fst (daily_calls today uid limit n d)))
             (snd (daily_calls today uid limit n d)).
Proof.
  exact (serial_schedule_is_sequential today uid limit n [] d).
Qed.

End SerialFacts.

Lemma create_project_counts_once_witness :
  exists d',
    Main.db
      (snd (Main.create_project (Main.mklimits 10 5) Examples.today
              (Main.mkCreateRequest "demo" "fastapi" None None None) false
              Examples.alice
              (Examples.state
                 (Examples.store [Services.mkusage 1 1 Examples.today 2 1] []))))
    = d'
    /\ Services.month_total Examples.today 1 d' = 2.
Proof.
  destruct (create_project_counts_once (Main.mklimits 10 5) Examples.today
              (Main.mkCreateRequest "demo" "fastapi" None None None) false
              Examples.alice
              (Examples.state (Examples.store [Services.mkusage 1 1 Examples.today 2 1] []))
              usage_wf_one_row)
    as [[H _] | [[_ [H _]] | [_ [_ (d' & E & T & _)]]]].
  - simpl. lia.
  - discriminate H.
  - exfalso. vm_compute in H. discriminate H.
  - exists d'. split; [rewrite E; reflexivity | exact T].
Defined.
